(** * The language-server client driver of Spyder

    A shallow embedding of [spyder/utils/code_analysis/ls_client/main.py]:
    the command line parser, the [SignalManager] class and the [__main__]
    block, which starts a [LanguageServerClient], relays until a
    termination signal arrives and then tears everything down.

    The collaborators of the script ([producer.LanguageServerClient],
    [psutil], [signal], [argparse]) are not part of the file.  Calls into
    them are recorded as events of a trace, and what they answer is read
    from a script of stimuli supplied by the environment.  Signals are
    taken to arrive while such a call runs, which is where the script
    spends its time; the handler then runs inside the call, as Python
    runs handlers in the main thread. *)

From Stdlib Require Import List String Ascii ZArith Bool Lia DecimalString.
Import ListNotations.
Local Open Scope string_scope.
Local Open Scope Z_scope.

(** ** Signals, handlers and exceptions *)

(** The signals the script names, and [SIGHUP] as one it does not touch. *)
Inductive signum : Type := SIGINT | SIGTERM | SIGBREAK | SIGHUP.

Definition signal_number (s : signum) : Z :=
  match s with
  | SIGHUP => 1
  | SIGINT => 2
  | SIGTERM => 15
  | SIGBREAK => 21
  end.

(** What [signal.getsignal] returns and [signal.signal] accepts.
    [exit_gracefully_method] is the bound method
    [sig_manager.exit_gracefully]; [default_int_handler] is the handler
    Python installs for [SIGINT] at start-up; [py_callable n] is any other
    Python callable.  A script started by the interpreter only meets such
    values: [exec] resets a caught signal to its default, so
    [getsignal] does not answer [None] there. *)
Inductive handler : Type :=
| SIG_DFL
| SIG_IGN
| default_int_handler
| exit_gracefully_method
| py_callable (id : nat).

Inductive exn : Type :=
| TerminateSignal (msg : string)
| KeyboardInterrupt
| AttributeError (attr : string)
| OtherError (name : string).

(** [except TerminateSignal:] *)
Definition is_TerminateSignal (e : exn) : bool :=
  match e with TerminateSignal _ => true | _ => false end.

(** The dispositions of the process, one per signal. *)
Record sigtable : Type := mk_sigtable {
  on_sigint : handler;
  on_sigterm : handler;
  on_sigbreak : handler;
  on_sighup : handler
}.

Definition getsignal (s : signum) (t : sigtable) : handler :=
  match s with
  | SIGINT => on_sigint t
  | SIGTERM => on_sigterm t
  | SIGBREAK => on_sigbreak t
  | SIGHUP => on_sighup t
  end.

Definition set_handler (s : signum) (h : handler) (t : sigtable) : sigtable :=
  match s with
  | SIGINT => mk_sigtable h (on_sigterm t) (on_sigbreak t) (on_sighup t)
  | SIGTERM => mk_sigtable (on_sigint t) h (on_sigbreak t) (on_sighup t)
  | SIGBREAK => mk_sigtable (on_sigint t) (on_sigterm t) h (on_sighup t)
  | SIGHUP => mk_sigtable (on_sigint t) (on_sigterm t) (on_sigbreak t) h
  end.

(** The table a freshly started interpreter has. *)
Definition startup_table : sigtable :=
  mk_sigtable default_int_handler SIG_DFL SIG_DFL SIG_DFL.

(** ** Command line values *)

(** An option value is the default given to [add_argument] or the string
    taken from the command line (no [type=] is given); [argparse] strips a
    value that is the separator [--] down to the empty list. *)
Inductive pyval : Type :=
| PyInt (z : Z)
| PyStr (s : string)
| PyEmptyList.

(** [args], the namespace [parse_known_args] fills. *)
Record Namespace : Type := mk_Namespace {
  zmq_port : pyval;
  server_host : pyval;
  server_port : pyval;
  folder : pyval;
  server : pyval;
  external_server : bool;
  debug : bool
}.

(** The keyword arguments of [LanguageServerClient(...)]. *)
Record client_kwargs : Type := mk_kwargs {
  kw_host : pyval;
  kw_port : pyval;
  kw_workspace : pyval;
  kw_zmq_port : pyval;
  kw_use_external_server : bool;
  kw_server : pyval;
  kw_server_args : list string
}.

(** ** The world *)

Inductive event : Type :=
| EvLogInfo (msg : string)                  (* LOGGER.info(msg) *)
| EvSignal (s : signum) (h : handler)       (* signal.signal(s, h) *)
| EvClientInit (kw : client_kwargs)         (* LanguageServerClient(...) *)
| EvClientStart                             (* client.start() *)
| EvClientListen                            (* client.listen() *)
| EvClientStop                              (* client.stop() *)
| EvTerminate (pid : Z)                     (* process.terminate() *)
| EvWait (pid : Z).                         (* process.wait() *)

(** What the environment does while a call into a collaborator runs. *)
Inductive stimulus : Type :=
| Returns                   (* the call returns *)
| Raises (e : exn)          (* the call raises [e] *)
| Delivered (s : signum).   (* signal [s] arrives during the call *)

Record world : Type := mk_world {
  os_name : string;            (* os.name *)
  getpid : Z;                  (* os.getpid() *)
  kill_exit_code : Z;          (* exit code TerminateProcess is given *)
  handlers : sigtable;
  trace : list event;          (* oldest first *)
  script : list stimulus
}.

Definition with_handlers (t : sigtable) (w : world) : world :=
  mk_world (os_name w) (getpid w) (kill_exit_code w) t (trace w) (script w).

Definition with_trace (tr : list event) (w : world) : world :=
  mk_world (os_name w) (getpid w) (kill_exit_code w) (handlers w) tr (script w).

Definition with_script (sc : list stimulus) (w : world) : world :=
  mk_world (os_name w) (getpid w) (kill_exit_code w) (handlers w) (trace w) sc.

(** [WINDOWS = os.name == 'nt'] *)
Definition WINDOWS (w : world) : bool := String.eqb (os_name w) "nt".

(** ** A monad for the script: state, exceptions and process death *)

Inductive halt : Type :=
| KilledBy (s : signum)       (* default action of a signal *)
| Exited (code : Z)           (* the process exited with [code] *)
| ForeignHandler (id : nat)   (* control passed to a handler not modelled *)
| Blocked                     (* waiting in a call that has not answered *)
| OutOfFuel.

Inductive outcome (A : Type) : Type :=
| Ok (a : A)
| Raise (e : exn)
| Halt (h : halt).
Arguments Ok {A} a.
Arguments Raise {A} e.
Arguments Halt {A} h.

Definition M (A : Type) : Type := world -> outcome A * world.

Definition ret {A} (a : A) : M A := fun w => (Ok a, w).

Definition bind {A B} (c : M A) (k : A -> M B) : M B :=
  fun w =>
    match c w with
    | (Ok a, w') => k a w'
    | (Raise e, w') => (Raise e, w')
    | (Halt h, w') => (Halt h, w')
    end.

Declare Scope py_scope.
Delimit Scope py_scope with py.
Notation "x <- c ;; k" := (bind c (fun x => k))
  (at level 61, c at next level, right associativity) : py_scope.
Notation "c ;; k" := (bind c (fun _ => k))
  (at level 61, right associativity) : py_scope.
Local Open Scope py_scope.

Definition raise {A} (e : exn) : M A := fun w => (Raise e, w).
Definition stop_with {A} (h : halt) : M A := fun w => (Halt h, w).
Definition emit (e : event) : M unit :=
  fun w => (Ok tt, with_trace (trace w ++ [e]) w).
Definition read {A} (f : world -> A) : M A := fun w => (Ok (f w), w).

(** [try: body  except TerminateSignal: hdl] *)
Definition try_except_TerminateSignal (body hdl : M unit) : M unit :=
  fun w =>
    match body w with
    | (Raise e, w') => if is_TerminateSignal e then hdl w' else (Raise e, w')
    | r => r
    end.

(** [while True: body].  The loop has no exit of its own; [fuel] bounds
    the number of iterations the model unfolds. *)
Fixpoint while_True (fuel : nat) (body : M unit) : M unit :=
  match fuel with
  | O => stop_with OutOfFuel
  | S n => body ;; while_True n body
  end.

(** ** The [signal] module *)

Definition signal_getsignal (s : signum) : M handler :=
  read (fun w => getsignal s (handlers w)).

Definition signal_signal (s : signum) (h : handler) : M unit :=
  fun w => (Ok tt, with_trace (trace w ++ [EvSignal s h])
                     (with_handlers (set_handler s h (handlers w)) w)).

(** ** Logging *)

(** ['{}'.format(signum)] for an integer. *)
Definition format_int (z : Z) : string :=
  DecimalString.NilZero.string_of_int (Z.to_int z).

(** ** [class SignalManager] *)

Record SignalManager : Type := mk_SignalManager {
  original_sigint : handler;
  original_sigterm : handler;
  original_sigbreak : option handler   (* set on Windows only *)
}.

(** [exit_gracefully(self, signum, frame)] *)
Definition exit_gracefully (signum : Z) (frame : unit) : M unit :=
  emit (EvLogInfo ("Termination signal (" ++ format_int signum
                   ++ ") captured, initiating exit sequence")) ;;
  raise (TerminateSignal "Exit process!").

(** [SignalManager.__init__(self)] *)
Definition SignalManager_init : M SignalManager :=
  o_int <- signal_getsignal SIGINT ;;
  o_term <- signal_getsignal SIGTERM ;;
  signal_signal SIGINT exit_gracefully_method ;;
  signal_signal SIGTERM exit_gracefully_method ;;
  win <- read WINDOWS ;;
  if (win : bool) then
    o_break <- signal_getsignal SIGBREAK ;;
    signal_signal SIGBREAK exit_gracefully_method ;;
    ret (mk_SignalManager o_int o_term (Some o_break))
  else
    ret (mk_SignalManager o_int o_term None).

(** [SignalManager.restore(self)] *)
Definition restore (self : SignalManager) : M unit :=
  signal_signal SIGINT (original_sigint self) ;;
  signal_signal SIGTERM (original_sigterm self) ;;
  win <- read WINDOWS ;;
  if (win : bool) then
    match original_sigbreak self with
    | Some h => signal_signal SIGBREAK h
    | None => raise (AttributeError "original_sigbreak")
    end
  else ret tt.

(** The signals the manager intercepts on this platform. *)
Definition monitored (w : world) (s : signum) : bool :=
  match s with
  | SIGINT | SIGTERM => true
  | SIGBREAK => WINDOWS w
  | SIGHUP => false
  end.

(** ** Signal delivery *)

(** What the interpreter does when signal [s] reaches the process: it
    looks the disposition up and acts on it. *)
Definition deliver (s : signum) : M unit :=
  h <- signal_getsignal s ;;
  match h with
  | SIG_IGN => ret tt
  | SIG_DFL => stop_with (KilledBy s)
  | default_int_handler => raise KeyboardInterrupt
  | exit_gracefully_method => exit_gracefully (signal_number s) tt
  | py_callable n => stop_with (ForeignHandler n)
  end.

(** ** Calls into collaborators *)

(** The answer of a call is read from the script.  A signal that is
    ignored leaves the call running; an exception raised by a handler
    comes out of the call. *)
Fixpoint answer (sc : list stimulus) : M unit :=
  match sc with
  | [] => fun w => (Halt Blocked, with_script [] w)
  | Returns :: rest => fun w => (Ok tt, with_script rest w)
  | Raises e :: rest => fun w => (Raise e, with_script rest w)
  | Delivered s :: rest =>
      fun w =>
        match deliver s (with_script rest w) with
        | (Ok _, w') => answer rest w'
        | r => r
        end
  end.

Definition call (e : event) : M unit :=
  emit e ;; (fun w => answer (script w) w).

Definition LanguageServerClient (kw : client_kwargs) : M unit :=
  call (EvClientInit kw).
Definition client_start : M unit := call EvClientStart.
Definition client_listen : M unit := call EvClientListen.
Definition client_stop : M unit := call EvClientStop.

(** ** [psutil] *)

Record Process : Type := mk_Process { proc_pid : Z }.

(** [psutil.Process(pid=None)]: without a pid, the calling process. *)
Definition psutil_Process (pid : option Z) : M Process :=
  match pid with
  | Some p => ret (mk_Process p)
  | None => p <- read getpid ;; ret (mk_Process p)
  end.

(** [Process.terminate()]: [os.kill(pid, SIGTERM)], and on Windows
    [TerminateProcess].  Only the case of the own pid acts on this
    process. *)
Definition Process_terminate (p : Process) : M unit :=
  emit (EvTerminate (proc_pid p)) ;;
  me <- read getpid ;;
  if proc_pid p =? me then
    win <- read WINDOWS ;;
    if (win : bool) then
      code <- read kill_exit_code ;; stop_with (Exited code)
    else deliver SIGTERM
  else ret tt.

(** [Process.wait()]: returns once the process is gone, so never for the
    own pid. *)
Definition Process_wait (p : Process) : M unit :=
  emit (EvWait (proc_pid p)) ;;
  me <- read getpid ;;
  if proc_pid p =? me then stop_with Blocked
  else (fun w => answer (script w) w).

(** ** The [__main__] block *)

Definition listen_loop : M unit :=
  fun w => while_True (S (List.length (script w))) client_listen w.

Definition teardown (sig_manager : SignalManager) (process : Process) : M unit :=
  client_stop ;;
  restore sig_manager ;;
  Process_terminate process ;;
  Process_wait process.

Definition main (args : Namespace) (unknownargs : list string) : M unit :=
  process <- psutil_Process None ;;
  sig_manager <- SignalManager_init ;;
  LanguageServerClient
    (mk_kwargs (server_host args) (server_port args) (folder args)
               (zmq_port args) (external_server args) (server args)
               unknownargs) ;;
  client_start ;;
  try_except_TerminateSignal listen_loop (ret tt) ;;
  teardown sig_manager process.

(** How the interpreter ends: exit code 0 after the last statement, 1 on
    an exception nobody caught; a process killed by a signal has no exit
    code. *)
Definition exit_code (r : outcome unit) : option Z :=
  match r with
  | Ok _ => Some 0
  | Raise _ => Some 1
  | Halt (Exited c) => Some c
  | Halt _ => None
  end.

(** A world at the start of the script. *)
Definition boot (os : string) (pid code : Z) (t : sigtable)
    (sc : list stimulus) : world :=
  mk_world os pid code t [] sc.

Definition sample_args : Namespace :=
  mk_Namespace (PyInt 7000) (PyStr "127.0.0.1") (PyInt 2087)
               (PyStr "/home/user") (PyStr "pyls") false false.

(** ** The command line: [argparse] *)

Module Argparse.

(** [s.split(c, 1)] when [c] occurs in [s]. *)
Fixpoint split_once (c : ascii) (s : string) : option (string * string) :=
  match s with
  | EmptyString => None
  | String a s' =>
      if Ascii.eqb a c then Some (EmptyString, s')
      else match split_once c s' with
           | Some (l, r) => Some (String a l, r)
           | None => None
           end
  end.

Definition contains (c : ascii) (s : string) : bool :=
  match split_once c s with Some _ => true | None => false end.

Definition is_digit (c : ascii) : bool :=
  (48 <=? nat_of_ascii c)%nat && (nat_of_ascii c <=? 57)%nat.

Fixpoint all_digits (s : string) : bool :=
  match s with
  | EmptyString => true
  | String c s' => is_digit c && all_digits s'
  end.

Definition nonempty (s : string) : bool :=
  match s with EmptyString => false | _ => true end.

(** [$] also matches in front of a final newline. *)
Fixpoint drop_final_newline (s : string) : string :=
  match s with
  | EmptyString => EmptyString
  | String c EmptyString =>
      if Ascii.eqb c "010" then EmptyString else s
  | String c s' => String c (drop_final_newline s')
  end.

(** [_negative_number_matcher]: ['^-\d+$|^-\d*\.\d+$'], on ASCII digits. *)
Definition negative_number_like (s : string) : bool :=
  match drop_final_newline s with
  | String "-" body =>
      (nonempty body && all_digits body)
      || match split_once "." body with
         | Some (l, r) => all_digits l && nonempty r && all_digits r
         | None => false
         end
  | _ => false
  end.

(** The destinations of the options, and the actions that fill them. *)
Inductive dest : Type :=
| d_zmq_port | d_server_host | d_server_port | d_folder | d_server.

Inductive flag : Type := d_external_server | d_debug.

Inductive action : Type :=
| Help                  (* the [-h/--help] every parser has *)
| Store (d : dest)      (* the default action: one argument *)
| StoreTrue (d : flag). (* [action='store_true'] *)

(** [parser]: the option strings in the order they were added. *)
Definition parser : list (string * action) :=
  [ ("-h", Help); ("--help", Help);
    ("--zmq-port", Store d_zmq_port);
    ("--server-host", Store d_server_host);
    ("--server-port", Store d_server_port);
    ("--folder", Store d_folder);
    ("--server", Store d_server);
    ("--external-server", StoreTrue d_external_server);
    ("--debug", StoreTrue d_debug) ].


Fixpoint lookup_option (o : string) (p : list (string * action))
  : option action :=
  match p with
  | [] => None
  | (name, a) :: rest => if String.eqb name o then Some a else lookup_option o rest
  end.

(** How [_parse_known_args] sees one argument string. *)
Inductive pattern : Type :=
| PArg                                    (* 'A': not an option *)
| PDash                                   (* '-': the separator [--] *)
| POpt (a : option action) (option_string : string)
       (explicit_arg : option string)     (* 'O' *)
| PAmbiguous.                             (* several options match *)

(** [_get_option_tuples]: the options [arg] abbreviates.  A string that
    starts with two dashes is cut at its first [=] and matches every
    option it is a prefix of; a string with one dash matches a short
    option followed by its argument. *)
Definition get_option_tuples (p : list (string * action)) (arg : string)
  : list pattern :=
  match arg with
  | String _ (String "-" _) =>
      let '(option_prefix, explicit_arg) :=
        match split_once "=" arg with
        | Some (l, r) => (l, Some r)
        | None => (arg, None)
        end in
      flat_map (fun '(name, a) =>
                  if String.prefix option_prefix name
                  then [POpt (Some a) name explicit_arg] else []) p
  | String c0 (String c1 short_explicit_arg) =>
      let short_option_prefix := String c0 (String c1 EmptyString) in
      flat_map (fun '(name, a) =>
                  if String.eqb name short_option_prefix
                  then [POpt (Some a) name (Some short_explicit_arg)]
                  else if String.prefix arg name
                  then [POpt (Some a) name None] else []) p
  | _ => []
  end.

(** [_parse_optional] *)
Definition parse_optional (p : list (string * action)) (arg : string)
  : pattern :=
  match arg with
  | EmptyString => PArg
  | String c rest =>
      if negb (Ascii.eqb c "-") then PArg
      else match lookup_option arg p with
      | Some a => POpt (Some a) arg None
      | None =>
        match rest with
        | EmptyString => PArg
        | _ =>
          let by_equals :=
            match split_once "=" arg with
            | Some (o, e) =>
                match lookup_option o p with
                | Some a => Some (POpt (Some a) o (Some e))
                | None => None
                end
            | None => None
            end in
          match by_equals with
          | Some t => t
          | None =>
            match get_option_tuples p arg with
            | [t] => t
            | _ :: _ :: _ => PAmbiguous
            | [] =>
                if negative_number_like arg then PArg
                else if contains " " arg then PArg
                else POpt None arg None
            end
          end
        end
      end
  end.

(** The first loop of [_parse_known_args]: everything after [--] is an
    argument. *)
Fixpoint classify (p : list (string * action)) (argv : list string)
  : list (string * pattern) :=
  match argv with
  | [] => []
  | a :: rest =>
      if String.eqb a "--"
      then (a, PDash) :: map (fun x => (x, PArg)) rest
      else (a, parse_optional p a) :: classify p rest
  end.

Definition is_ambiguous (it : string * pattern) : bool :=
  match snd it with PAmbiguous => true | _ => false end.

(** [setattr(namespace, dest, value)] *)
Definition setattr (d : dest) (v : pyval) (ns : Namespace) : Namespace :=
  match d with
  | d_zmq_port =>
      mk_Namespace v (server_host ns) (server_port ns) (folder ns)
                   (server ns) (external_server ns) (debug ns)
  | d_server_host =>
      mk_Namespace (zmq_port ns) v (server_port ns) (folder ns)
                   (server ns) (external_server ns) (debug ns)
  | d_server_port =>
      mk_Namespace (zmq_port ns) (server_host ns) v (folder ns)
                   (server ns) (external_server ns) (debug ns)
  | d_folder =>
      mk_Namespace (zmq_port ns) (server_host ns) (server_port ns) v
                   (server ns) (external_server ns) (debug ns)
  | d_server =>
      mk_Namespace (zmq_port ns) (server_host ns) (server_port ns)
                   (folder ns) v (external_server ns) (debug ns)
  end.

Definition set_true (d : flag) (ns : Namespace) : Namespace :=
  match d with
  | d_external_server =>
      mk_Namespace (zmq_port ns) (server_host ns) (server_port ns)
                   (folder ns) (server ns) true (debug ns)
  | d_debug =>
      mk_Namespace (zmq_port ns) (server_host ns) (server_port ns)
                   (folder ns) (server ns) (external_server ns) true
  end.

(** [_get_values] for one argument string: a [--] is removed first, and
    no string left makes the empty list. *)
Definition get_values (arg_string : string) : pyval :=
  if String.eqb arg_string "--" then PyEmptyList else PyStr arg_string.

(** The tail of [-hXYZ] is read as further one-letter options. *)
Fixpoint short_options_only (p : list (string * action)) (tail : string)
  : bool :=
  match tail with
  | EmptyString => true
  | String c tail' =>
      match lookup_option (String "-" (String c EmptyString)) p with
      | Some _ => short_options_only p tail'
      | None => false
      end
  end.

Inductive parsed : Type :=
| Parsed (args : Namespace) (unknownargs : list string)
| SystemExit (code : Z)     (* 0 after the help text, 2 after an error *)
| Crashed (e : exn).        (* an exception [argparse] lets through *)

(** The second loop of [_parse_known_args] with [consume_optional]: the
    parser has no positional argument, so whatever is no option of its
    own goes to [extras]. *)
Fixpoint consume (p : list (string * action))
    (items : list (string * pattern)) (ns : Namespace)
    (extras : list string) : parsed :=
  match items with
  | [] => Parsed ns extras
  | (s, PArg) :: rest | (s, PDash) :: rest
  | (s, POpt None _ _) :: rest => consume p rest ns (extras ++ [s])
  | (_, PAmbiguous) :: _ => SystemExit 2
  | (_, POpt (Some Help) _ None) :: _ => SystemExit 0
  | (_, POpt (Some Help) o (Some e)) :: _ =>
      match o with
      | String _ (String "-" _) => SystemExit 2
      | _ => match e with
             | EmptyString => Crashed (OtherError "IndexError")
             | _ => if short_options_only p e then SystemExit 0
                    else SystemExit 2
             end
      end
  | (_, POpt (Some (Store d)) _ (Some e)) :: rest =>
      consume p rest (setattr d (get_values e) ns) extras
  | (_, POpt (Some (Store d)) _ None) :: rest =>
      match rest with
      | (x, PArg) :: rest' => consume p rest' (setattr d (get_values x) ns) extras
      | _ => SystemExit 2
      end
  | (_, POpt (Some (StoreTrue d)) _ None) :: rest =>
      consume p rest (set_true d ns) extras
  | (_, POpt (Some (StoreTrue d)) _ (Some _)) :: _ => SystemExit 2
  end.

(** The defaults of the [add_argument] calls; [cwd] is what [getcwd()]
    answers. *)
Definition defaults (cwd : string) : Namespace :=
  mk_Namespace (PyInt 7000) (PyStr "127.0.0.1") (PyInt 2087) (PyStr cwd)
               (PyStr "pyls") false false.

(** [parser.parse_known_args()] on [sys.argv[1:]] *)
Definition parse_known_args (cwd : string) (argv : list string) : parsed :=
  let items := classify parser argv in
  if existsb is_ambiguous items then SystemExit 2
  else consume parser items (defaults cwd) [].

End Argparse.

(** [LEVEL] *)
Definition LEVEL (args : Namespace) : string :=
  if debug args then "debug" else "info".

(** The whole script: the module level parses the command line, then the
    [__main__] block runs. *)
Definition program (cwd : string) (argv : list string) : M unit :=
  match Argparse.parse_known_args cwd argv with
  | Argparse.Parsed args unknownargs => main args unknownargs
  | Argparse.SystemExit code => stop_with (Exited code)
  | Argparse.Crashed e => raise e
  end.

(** * The vocabulary of the properties *)

Local Open Scope list_scope.

(** [frame w w']: platform, pid and dispositions are the same. *)
Definition frame (w w' : world) : Prop :=
  os_name w' = os_name w /\ getpid w' = getpid w
  /\ kill_exit_code w' = kill_exit_code w /\ handlers w' = handlers w.

(** The record the handler writes for signal number [n]. *)
Definition captured (n : Z) : event :=
  EvLogInfo ("Termination signal (" ++ format_int n
             ++ ") captured, initiating exit sequence")%string.

(** The events a delivered signal can add, given the outcome: none, or
    the one record of [exit_gracefully], which then raised. *)
Definition handler_log {A} (t : sigtable) (r : outcome A)
    (logs : list event) : Prop :=
  logs = []
  \/ exists s, logs = [captured (signal_number s)]
               /\ r = Raise (TerminateSignal "Exit process!")
               /\ getsignal s t = exit_gracefully_method.

(** The table once the manager is constructed. *)
Definition installed (w : world) : sigtable :=
  mk_sigtable exit_gracefully_method exit_gracefully_method
              (if WINDOWS w then exit_gracefully_method
               else on_sigbreak (handlers w))
              (on_sighup (handlers w)).

(** The manager constructed in [w]. *)
Definition saved (w : world) : SignalManager :=
  mk_SignalManager (on_sigint (handlers w)) (on_sigterm (handlers w))
                   (if WINDOWS w then Some (on_sigbreak (handlers w))
                    else None).

Definition install_events (w : world) : list event :=
  [EvSignal SIGINT exit_gracefully_method;
   EvSignal SIGTERM exit_gracefully_method]
  ++ (if WINDOWS w then [EvSignal SIGBREAK exit_gracefully_method] else []).

Definition restore_events (w : world) : list event :=
  [EvSignal SIGINT (on_sigint (handlers w));
   EvSignal SIGTERM (on_sigterm (handlers w))]
  ++ (if WINDOWS w then [EvSignal SIGBREAK (on_sigbreak (handlers w))]
      else []).

Definition kwargs_of (args : Namespace) (unknownargs : list string)
  : client_kwargs :=
  mk_kwargs (server_host args) (server_port args) (folder args)
            (zmq_port args) (external_server args) (server args)
            unknownargs.

(** The world in which [LanguageServerClient(...)] is called. *)
Definition managed (w0 : world) : world :=
  with_trace (trace w0 ++ install_events w0) (with_handlers (installed w0) w0).

(** What [process.terminate()] on the own pid comes to when the
    dispositions are those of [w0]. *)
Definition self_terminate (w0 : world) : outcome unit :=
  if WINDOWS w0 then Halt (Exited (kill_exit_code w0))
  else match on_sigterm (handlers w0) with
       | SIG_DFL => Halt (KilledBy SIGTERM)
       | SIG_IGN => Ok tt
       | default_int_handler => Raise KeyboardInterrupt
       | exit_gracefully_method => Raise (TerminateSignal "Exit process!")
       | py_callable n => Halt (ForeignHandler n)
       end.

Definition self_terminate_logs (w0 : world) : list event :=
  if WINDOWS w0 then []
  else match on_sigterm (handlers w0) with
       | exit_gracefully_method => [captured (signal_number SIGTERM)]
       | _ => []
       end.

Section Runs.

Variable w0 : world.
Variable kw : client_kwargs.

(** Every run of the block, by the statement in which it ends.  [caught]
    is what the handler logged before the [except] clause took over;
    [logs] is what it logged in the last call. *)
Inductive run_of : outcome unit -> world -> Prop :=
| ended_in_construction logs r w :
    trace w = trace (managed w0) ++ EvClientInit kw :: logs ->
    frame (managed w0) w ->
    (forall u, r <> Ok u) ->
    handler_log (installed w0) r logs ->
    run_of r w
| ended_in_start logs r w :
    trace w = trace (managed w0)
              ++ EvClientInit kw :: EvClientStart :: logs ->
    frame (managed w0) w ->
    (forall u, r <> Ok u) ->
    handler_log (installed w0) r logs ->
    run_of r w
| ended_in_loop n logs r w :
    trace w = trace (managed w0)
              ++ EvClientInit kw :: EvClientStart
                 :: repeat EvClientListen (S n) ++ logs ->
    frame (managed w0) w ->
    (forall u, r <> Ok u) ->
    (forall e, r = Raise e -> is_TerminateSignal e = false) ->
    r <> Halt OutOfFuel ->
    handler_log (installed w0) r logs ->
    run_of r w
| ended_in_stop n caught logs r w :
    trace w = trace (managed w0)
              ++ EvClientInit kw :: EvClientStart
                 :: repeat EvClientListen (S n) ++ caught
                 ++ EvClientStop :: logs ->
    frame (managed w0) w ->
    (forall u, r <> Ok u) ->
    handler_log (installed w0)
                (@Raise unit (TerminateSignal "Exit process!")) caught ->
    handler_log (installed w0) r logs ->
    run_of r w
| ended_in_terminate n caught w :
    trace w = trace (managed w0)
              ++ EvClientInit kw :: EvClientStart
                 :: repeat EvClientListen (S n) ++ caught
                 ++ EvClientStop :: restore_events w0
                 ++ EvTerminate (getpid w0) :: self_terminate_logs w0 ->
    frame w0 w ->
    (forall u, self_terminate w0 <> Ok u) ->
    handler_log (installed w0)
                (@Raise unit (TerminateSignal "Exit process!")) caught ->
    run_of (self_terminate w0) w
| ended_in_wait n caught w :
    trace w = trace (managed w0)
              ++ EvClientInit kw :: EvClientStart
                 :: repeat EvClientListen (S n) ++ caught
                 ++ EvClientStop :: restore_events w0
                 ++ [EvTerminate (getpid w0); EvWait (getpid w0)] ->
    frame w0 w ->
    self_terminate w0 = Ok tt ->
    self_terminate_logs w0 = [] ->
    handler_log (installed w0)
                (@Raise unit (TerminateSignal "Exit process!")) caught ->
    run_of (Halt Blocked) w.

End Runs.

(** The handler the manager recorded for signal [s], if it recorded one. *)
Definition recorded (sm : SignalManager) (s : signum) : option handler :=
  match s with
  | SIGINT => Some (original_sigint sm)
  | SIGTERM => Some (original_sigterm sm)
  | SIGBREAK => original_sigbreak sm
  | SIGHUP => None
  end.

(** The world at the [try] statement, after construction and start
    answered, the script left being [sc]. *)
Definition relaying (w0 : world) (kw : client_kwargs)
    (sc : list stimulus) : world :=
  with_script sc
    (with_trace (trace w0 ++ install_events w0
                 ++ [EvClientInit kw; EvClientStart])
       (with_handlers (installed w0) w0)).

Definition is_log (e : event) : bool :=
  match e with EvLogInfo _ => true | _ => false end.

Definition is_signal_call (e : event) : bool :=
  match e with EvSignal _ _ => true | _ => false end.

(** The script of a run in which construction and start answer, [n]
    iterations stay quiet and the next one meets the stimulus [st]. *)
Definition relayed (n : nat) (st : stimulus) (rest : list stimulus)
  : list stimulus :=
  Returns :: Returns :: repeat Returns n ++ st :: rest.

(** The world in which the loop was left from its iteration [S n], [last]
    being what that iteration added to the trace after the call. *)
Definition left_loop (w0 : world) (kw : client_kwargs) (n : nat)
    (last : list event) (rest : list stimulus) : world :=
  with_script rest
    (with_trace (trace w0 ++ install_events w0
                 ++ [EvClientInit kw; EvClientStart]
                 ++ repeat EvClientListen (S n) ++ last)
       (with_handlers (installed w0) w0)).

(** The handler of a flag design: it gives control back to the code it
    interrupted. *)
Definition handler_returns (signum : Z) (w : world) : Prop :=
  exists w', exit_gracefully signum tt w = (Ok tt, w').

(** The trace from the first [client.stop()] on. *)
Fixpoint from_stop (tr : list event) : list event :=
  match tr with
  | [] => []
  | EvClientStop :: _ => tr
  | _ :: tr' => from_stop tr'
  end.

Definition without_logs (tr : list event) : list event :=
  filter (fun e => negb (is_log e)) tr.

(** The calls of the teardown, in the order they were made. *)
Definition teardown_calls (tr : list event) : list event :=
  without_logs (from_stop tr).

(** The order the claim words: once a handler is restored, no
    [terminate()] or [wait()] follows. *)
Definition restoration_is_last (tr : list event) : Prop :=
  forall before s h after,
    teardown_calls tr = before ++ EvSignal s h :: after ->
    forall p, ~ In (EvTerminate p) after /\ ~ In (EvWait p) after.

(** The phases of the driver, as its calls show them. *)
Inductive phase : Type :=
| starting | running | shutdown_requested | shutdown_complete.

Definition phase_rank (p : phase) : nat :=
  match p with
  | starting => 0
  | running => 1
  | shutdown_requested => 2
  | shutdown_complete => 3
  end.

(** The phase a call belongs to; log records and [signal.signal] calls
    belong to none. *)
Definition phase_of (e : event) : option phase :=
  match e with
  | EvClientInit _ | EvClientStart => Some starting
  | EvClientListen => Some running
  | EvClientStop => Some shutdown_requested
  | EvTerminate _ | EvWait _ => Some shutdown_complete
  | EvLogInfo _ | EvSignal _ _ => None
  end.

Fixpoint phases (tr : list event) : list phase :=
  match tr with
  | [] => []
  | e :: tr' =>
      match phase_of e with
      | Some p => p :: phases tr'
      | None => phases tr'
      end
  end.

(** No phase is followed by an earlier one. *)
Fixpoint advances (from : phase) (l : list phase) : bool :=
  match l with
  | [] => true
  | p :: l' => (phase_rank from <=? phase_rank p)%nat && advances p l'
  end.

(** The loop of a flag design: it ends by reading the flag, that is, it
    returns. *)
Definition loop_returns (w : world) : Prop :=
  exists u w', listen_loop w = (Ok u, w').

(** The outcome of the block once [client.stop()] has returned. *)
Definition shutdown_outcome (w0 : world) : outcome unit :=
  match self_terminate w0 with
  | Ok _ => Halt Blocked
  | r => r
  end.

(** Two runs have the same effects. *)
Definition same_effects (a b : outcome unit * world) : Prop :=
  fst a = fst b /\ trace (snd a) = trace (snd b)
  /\ handlers (snd a) = handlers (snd b).

(** [l1] is [l2] with some elements left out: nothing is altered, added
    or reordered. *)
Inductive subseq {A : Type} : list A -> list A -> Prop :=
| subseq_nil : subseq [] []
| subseq_skip x l1 l2 : subseq l1 l2 -> subseq l1 (x :: l2)
| subseq_take x l1 l2 : subseq l1 l2 -> subseq (x :: l1) (x :: l2).

(** An argument string the parser has no use for. *)
Definition unrecognized (it : string * Argparse.pattern) : bool :=
  match snd it with
  | Argparse.PArg | Argparse.PDash | Argparse.POpt None _ _ => true
  | _ => false
  end.

(** A command line tail made of such strings only. *)
Definition passes_through (extra : list string) : bool :=
  forallb unrecognized (Argparse.classify Argparse.parser extra).

Module ArgparseSteps.
Import Argparse.

(** [consume], one step at a time. *)
Inductive step_of (p : list (string * action)) :
  list (string * pattern) -> Namespace -> list string ->
  list (string * pattern) -> Namespace -> list string -> Prop :=
| step_extra s pat rest ns acc :
    unrecognized (s, pat) = true ->
    step_of p ((s, pat) :: rest) ns acc rest ns (acc ++ [s])
| step_store_explicit s d o e rest ns acc :
    step_of p ((s, POpt (Some (Store d)) o (Some e)) :: rest) ns acc
            rest (setattr d (get_values e) ns) acc
| step_store_next s d o x rest ns acc :
    step_of p ((s, POpt (Some (Store d)) o None) :: (x, PArg) :: rest) ns acc
            rest (setattr d (get_values x) ns) acc
| step_store_true s d o rest ns acc :
    step_of p ((s, POpt (Some (StoreTrue d)) o None) :: rest) ns acc
            rest (set_true d ns) acc.

End ArgparseSteps.

(** An option value that is a Python [int]. *)
Definition is_int (v : pyval) : bool :=
  match v with PyInt _ => true | _ => false end.

(** * Properties *)

(** ** What a step leaves alone *)

Lemma frame_refl w : frame w w.
Proof. repeat split. Qed.

Lemma frame_trans w1 w2 w3 : frame w1 w2 -> frame w2 w3 -> frame w1 w3.
Proof.
  unfold frame. intros (a1 & a2 & a3 & a4) (b1 & b2 & b3 & b4).
  repeat split; congruence.
Qed.

Lemma frame_WINDOWS w w' : frame w w' -> WINDOWS w' = WINDOWS w.
Proof. intros (H & _). unfold WINDOWS. now rewrite H. Qed.

Lemma frame_monitored w w' s : frame w w' -> monitored w' s = monitored w s.
Proof. intros H. destruct s; simpl; auto using frame_WINDOWS. Qed.

Lemma exit_gracefully_run n w :
  exit_gracefully n tt w
  = (Raise (TerminateSignal "Exit process!"),
     with_trace (trace w ++ [captured n]) w).
Proof. reflexivity. Qed.

Lemma deliver_spec s w :
  exists logs,
    trace (snd (deliver s w)) = trace w ++ logs
    /\ frame w (snd (deliver s w))
    /\ script (snd (deliver s w)) = script w
    /\ handler_log (handlers w) (fst (deliver s w)) logs.
Proof.
  unfold deliver, bind, signal_getsignal, read.
  destruct (getsignal s (handlers w)) eqn:E; simpl.
  1,2,3,5: exists []; rewrite app_nil_r; repeat split; now left.
  exists [captured (signal_number s)]. repeat split.
  right. exists s. auto.
Qed.

Lemma answer_spec sc : forall w,
  exists logs,
    trace (snd (answer sc w)) = trace w ++ logs
    /\ frame w (snd (answer sc w))
    /\ (List.length (script (snd (answer sc w))) <= List.length sc)%nat
    /\ (forall u, fst (answer sc w) = Ok u ->
          (List.length (script (snd (answer sc w))) < List.length sc)%nat)
    /\ fst (answer sc w) <> Halt OutOfFuel
    /\ handler_log (handlers w) (fst (answer sc w)) logs.
Proof.
  induction sc as [|st rest IH]; intros w.
  - exists []. simpl. rewrite app_nil_r.
    repeat split; auto; try discriminate. now left.
  - destruct st as [|e|s]; simpl.
    + exists []. rewrite app_nil_r. repeat split; auto; try discriminate.
      now left.
    + exists []. rewrite app_nil_r. repeat split; auto; try discriminate.
      now left.
    + destruct (deliver_spec s (with_script rest w))
        as (logs & Ht & Hf & Hs & Hl).
      destruct (deliver s (with_script rest w)) as [r w1] eqn:E.
      simpl in *. destruct r as [u|e|h].
      * destruct Hl as [->|(s0 & _ & Hr & _)]; [|discriminate].
        destruct (IH w1) as (logs' & Ht' & Hf' & Hlen & Hlt & Hne & Hl').
        exists logs'. rewrite app_nil_r in Ht.
        repeat split.
        -- rewrite Ht'. now rewrite Ht.
        -- destruct Hf as (a1 & a2 & a3 & a4), Hf' as (b1 & b2 & b3 & b4).
           simpl in *. congruence.
        -- destruct Hf as (a1 & a2 & a3 & a4), Hf' as (b1 & b2 & b3 & b4).
           simpl in *. congruence.
        -- destruct Hf as (a1 & a2 & a3 & a4), Hf' as (b1 & b2 & b3 & b4).
           simpl in *. congruence.
        -- destruct Hf as (a1 & a2 & a3 & a4), Hf' as (b1 & b2 & b3 & b4).
           simpl in *. congruence.
        -- lia.
        -- intros u0 Hu. specialize (Hlt u0 Hu). lia.
        -- exact Hne.
        -- destruct Hf as (_ & _ & _ & a4). simpl in a4.
           rewrite a4 in Hl'. exact Hl'.
      * exists logs. simpl. repeat split; try apply Hf; try discriminate.
        -- exact Ht.
        -- rewrite Hs. simpl. lia.
        -- exact Hl.
      * exists logs. simpl. repeat split; try apply Hf; try discriminate.
        -- exact Ht.
        -- rewrite Hs. simpl. lia.
        -- destruct Hl as [->|(s0 & _ & Hr & _)]; [|discriminate].
           unfold deliver, bind, signal_getsignal, read in E.
           destruct (getsignal s (handlers (with_script rest w)));
             inversion E; discriminate.
        -- exact Hl.
Qed.

Lemma call_spec e w :
  exists logs,
    trace (snd (call e w)) = trace w ++ e :: logs
    /\ frame w (snd (call e w))
    /\ (forall u, fst (call e w) = Ok u ->
          logs = []
          /\ (List.length (script (snd (call e w)))
              < List.length (script w))%nat)
    /\ (List.length (script (snd (call e w))) <= List.length (script w))%nat
    /\ fst (call e w) <> Halt OutOfFuel
    /\ handler_log (handlers w) (fst (call e w)) logs.
Proof.
  unfold call, bind, emit.
  set (w1 := with_trace (trace w ++ [e]) w).
  destruct (answer_spec (script w1) w1)
    as (logs & Ht & Hf & Hle & Hlt & Hne & Hl).
  exists logs.
  destruct (answer (script w1) w1) as [r w2] eqn:E. simpl in *.
  repeat split; try apply Hf; auto.
  - rewrite Ht. now rewrite <- app_assoc.
  - destruct Hl as [->|(s & _ & Hr & _)]; [reflexivity|].
    subst r. discriminate.
  - eapply Hlt; eauto.
Qed.

(** ** The loop *)

(** With more fuel than stimuli, [while True: client.listen()] calls
    [listen] at least once, and comes to an end only through an exception
    or the end of the process: it neither returns nor runs out of fuel. *)
Lemma while_True_listen fuel : forall w,
  (List.length (script w) < fuel)%nat ->
  exists n logs,
    trace (snd (while_True fuel client_listen w))
    = trace w ++ repeat EvClientListen (S n) ++ logs
    /\ frame w (snd (while_True fuel client_listen w))
    /\ (forall u, fst (while_True fuel client_listen w) <> Ok u)
    /\ fst (while_True fuel client_listen w) <> Halt OutOfFuel
    /\ (List.length (script (snd (while_True fuel client_listen w)))
        <= List.length (script w))%nat
    /\ handler_log (handlers w) (fst (while_True fuel client_listen w)) logs.
Proof.
  induction fuel as [|fuel IH]; intros w Hlen; [lia|].
  assert (Hstep : while_True (S fuel) client_listen w
                  = match call EvClientListen w with
                    | (Ok _, w') => while_True fuel client_listen w'
                    | (Raise e, w') => (Raise e, w')
                    | (Halt h, w') => (Halt h, w')
                    end) by reflexivity.
  rewrite Hstep. clear Hstep.
  destruct (call_spec EvClientListen w)
    as (logs & Ht & Hf & Hok & Hle & Hne & Hl).
  destruct (call EvClientListen w) as [r w1] eqn:E. simpl in *.
  destruct r as [u|e|h].
  - destruct (Hok u eq_refl) as (-> & Hlt).
    destruct (IH w1 ltac:(lia))
      as (n & logs' & Ht' & Hf' & Hno & Hne' & Hle' & Hl').
    exists (S n), logs'.
    split; [|split; [|split; [|split; [|split]]]]; auto.
    + rewrite Ht', Ht. rewrite <- app_assoc. reflexivity.
    + eapply frame_trans; eauto.
    + lia.
    + destruct Hf as (_ & _ & _ & a4). now rewrite a4 in Hl'.
  - exists O, logs. simpl.
    split; [|split; [|split; [|split; [|split]]]]; auto; discriminate.
  - exists O, logs. simpl.
    split; [|split; [|split; [|split; [|split]]]]; auto; discriminate.
Qed.

(** ** The manager *)

Lemma SignalManager_init_run w :
  SignalManager_init w
  = (Ok (saved w),
     with_trace (trace w ++ install_events w)
                (with_handlers (installed w) w)).
Proof.
  unfold SignalManager_init, saved, installed, install_events, bind,
    signal_getsignal, signal_signal, read, ret, with_trace, with_handlers.
  cbn. unfold WINDOWS. cbn.
  destruct (String.eqb (os_name w) "nt"); cbn;
    repeat rewrite <- app_assoc; reflexivity.
Qed.

(** Restoring in a world [w] whose platform is that of [w0] and whose
    untouched dispositions are those of [w0]. *)
Lemma restore_run w0 w :
  os_name w = os_name w0 ->
  on_sighup (handlers w) = on_sighup (handlers w0) ->
  (WINDOWS w0 = false -> on_sigbreak (handlers w) = on_sigbreak (handlers w0)) ->
  restore (saved w0) w
  = (Ok tt,
     with_trace (trace w ++ restore_events w0)
                (with_handlers (handlers w0) w)).
Proof.
  intros Hos Hhup Hbrk.
  unfold restore, saved, restore_events, bind, signal_signal, read, ret,
    with_trace, with_handlers.
  cbn. unfold WINDOWS in *. cbn. rewrite Hos.
  destruct (String.eqb (os_name w0) "nt"); cbn.
  - rewrite Hhup. destruct (handlers w0).
    repeat rewrite <- app_assoc; reflexivity.
  - rewrite Hhup, (Hbrk eq_refl). destruct (handlers w0). cbn.
    repeat rewrite <- app_assoc; reflexivity.
Qed.

(** ** The runs of the [__main__] block *)

Lemma main_unfold args unknownargs w0 :
  main args unknownargs w0
  = (LanguageServerClient (kwargs_of args unknownargs) ;;
     client_start ;;
     try_except_TerminateSignal listen_loop (ret tt) ;;
     teardown (saved w0) (mk_Process (getpid w0))) (managed w0).
Proof.
  unfold main, psutil_Process, kwargs_of, managed.
  unfold bind at 1 2 3. unfold read at 1, ret at 1.
  rewrite SignalManager_init_run. reflexivity.
Qed.

Lemma Process_terminate_self w0 w :
  os_name w = os_name w0 -> getpid w = getpid w0 ->
  kill_exit_code w = kill_exit_code w0 -> handlers w = handlers w0 ->
  Process_terminate (mk_Process (getpid w0)) w
  = (self_terminate w0,
     with_trace (trace w ++ EvTerminate (getpid w0) :: self_terminate_logs w0) w).
Proof.
  intros Hos Hpid Hcode Hh.
  unfold Process_terminate, self_terminate, self_terminate_logs, bind, emit,
    read, stop_with, deliver, signal_getsignal, exit_gracefully, raise, ret,
    WINDOWS.
  cbn. rewrite Hpid, Z.eqb_refl. cbn. rewrite Hos.
  destruct (String.eqb (os_name w0) "nt"); cbn; [now rewrite Hcode|].
  rewrite Hh.
  destruct (on_sigterm (handlers w0)); cbn; try reflexivity.
  unfold with_trace, captured; cbn. now rewrite <- app_assoc.
Qed.

Lemma Process_wait_self w0 w :
  getpid w = getpid w0 ->
  Process_wait (mk_Process (getpid w0)) w
  = (Halt Blocked, with_trace (trace w ++ [EvWait (getpid w0)]) w).
Proof.
  intros Hpid. unfold Process_wait, bind, emit, read, stop_with. cbn.
  now rewrite Hpid, Z.eqb_refl.
Qed.

Lemma handler_log_frame {A} w w' (r : outcome A) logs :
  frame w w' -> handler_log (handlers w') r logs ->
  handler_log (handlers w) r logs.
Proof. intros (_ & _ & _ & H). now rewrite H. Qed.

Lemma handler_log_caught {A} t (r : outcome A) logs m :
  r = Raise (TerminateSignal m) -> handler_log t r logs ->
  handler_log t (@Raise unit (TerminateSignal "Exit process!")) logs.
Proof.
  intros _ [->|(s & H1 & _ & H3)]; [now left|].
  right. exists s. auto.
Qed.

Lemma self_terminate_Ok_logs w0 u :
  self_terminate w0 = Ok u -> self_terminate_logs w0 = [].
Proof.
  unfold self_terminate, self_terminate_logs.
  destruct (WINDOWS w0); [discriminate|].
  destruct (on_sigterm (handlers w0)); try discriminate; reflexivity.
Qed.

Lemma teardown_unfold sm p w :
  teardown sm p w
  = match client_stop w with
    | (Ok _, w1) =>
        match restore sm w1 with
        | (Ok _, w2) =>
            match Process_terminate p w2 with
            | (Ok _, w3) => Process_wait p w3
            | (Raise e, w3) => (Raise e, w3)
            | (Halt h, w3) => (Halt h, w3)
            end
        | (Raise e, w2) => (Raise e, w2)
        | (Halt h, w2) => (Halt h, w2)
        end
    | (Raise e, w1) => (Raise e, w1)
    | (Halt h, w1) => (Halt h, w1)
    end.
Proof. reflexivity. Qed.

Lemma managed_frame w0 w :
  frame (managed w0) w ->
  os_name w = os_name w0 /\ getpid w = getpid w0
  /\ kill_exit_code w = kill_exit_code w0 /\ handlers w = installed w0.
Proof. intros (a & b & c & d). simpl in *. auto. Qed.

(** The block run from [w], where the loop has just been left through
    [except TerminateSignal], ends in one of the last three ways. *)
Lemma teardown_cases w0 w :
  frame (managed w0) w ->
  (exists logs,
      trace (snd (teardown (saved w0) (mk_Process (getpid w0)) w))
      = trace w ++ EvClientStop :: logs
      /\ frame (managed w0) (snd (teardown (saved w0) (mk_Process (getpid w0)) w))
      /\ (forall u, fst (teardown (saved w0) (mk_Process (getpid w0)) w) <> Ok u)
      /\ handler_log (installed w0)
           (fst (teardown (saved w0) (mk_Process (getpid w0)) w)) logs)
  \/ (trace (snd (teardown (saved w0) (mk_Process (getpid w0)) w))
      = trace w ++ EvClientStop :: restore_events w0
        ++ EvTerminate (getpid w0) :: self_terminate_logs w0
      /\ frame w0 (snd (teardown (saved w0) (mk_Process (getpid w0)) w))
      /\ (forall u, self_terminate w0 <> Ok u)
      /\ fst (teardown (saved w0) (mk_Process (getpid w0)) w) = self_terminate w0)
  \/ (trace (snd (teardown (saved w0) (mk_Process (getpid w0)) w))
      = trace w ++ EvClientStop :: restore_events w0
        ++ [EvTerminate (getpid w0); EvWait (getpid w0)]
      /\ frame w0 (snd (teardown (saved w0) (mk_Process (getpid w0)) w))
      /\ self_terminate w0 = Ok tt
      /\ fst (teardown (saved w0) (mk_Process (getpid w0)) w) = Halt Blocked).
Proof.
  intros Hf. rewrite teardown_unfold. unfold client_stop.
  destruct (call_spec EvClientStop w) as (logs & Ht & Hf1 & Hok & _ & _ & Hl).
  destruct (call EvClientStop w) as [r w1] eqn:E. simpl in *.
  assert (Hf1' : frame (managed w0) w1) by (eapply frame_trans; eauto).
  assert (Hl' : handler_log (installed w0) r logs).
  { destruct (managed_frame _ _ Hf) as (_ & _ & _ & <-). exact Hl. }
  destruct r as [u|e|h].
  2,3: left; exists logs; simpl; repeat split; try apply Hf1'; auto; discriminate.
  destruct (Hok u eq_refl) as (-> & _).
  destruct (managed_frame _ _ Hf1') as (Hos & Hpid & Hcode & Hh).
  rewrite (restore_run w0 w1 Hos).
  2: { rewrite Hh. reflexivity. }
  2: { intros Hw. rewrite Hh. unfold installed. now rewrite Hw. }
  set (w2 := with_trace _ _).
  rewrite (Process_terminate_self w0 w2) by (subst w2; simpl; auto).
  set (w3 := with_trace _ _).
  destruct (self_terminate w0) as [u'|e|h] eqn:Est.
  - right; right. rewrite (Process_wait_self w0 w3) by (subst w3 w2; simpl; auto).
    destruct u'. simpl. subst w3 w2. simpl.
    rewrite (self_terminate_Ok_logs _ _ Est), Ht.
    repeat split; auto.
    repeat (rewrite <- app_assoc; simpl). reflexivity.
  - right; left. simpl. subst w3 w2; simpl. rewrite Ht.
    repeat split; auto; try discriminate.
    repeat (rewrite <- app_assoc; simpl). reflexivity.
  - right; left. simpl. subst w3 w2; simpl. rewrite Ht.
    repeat split; auto; try discriminate.
    repeat (rewrite <- app_assoc; simpl). reflexivity.
Qed.

Lemma listen_loop_spec w :
  exists n logs,
    trace (snd (listen_loop w))
    = trace w ++ repeat EvClientListen (S n) ++ logs
    /\ frame w (snd (listen_loop w))
    /\ (forall u, fst (listen_loop w) <> Ok u)
    /\ fst (listen_loop w) <> Halt OutOfFuel
    /\ handler_log (handlers w) (fst (listen_loop w)) logs.
Proof.
  unfold listen_loop.
  destruct (while_True_listen (S (List.length (script w))) w ltac:(lia))
    as (n & logs & H1 & H2 & H3 & H4 & _ & H6).
  exists n, logs. auto.
Qed.

(** Every run of the block is one of the six. *)
Lemma main_runs args unknownargs w0 :
  run_of w0 (kwargs_of args unknownargs)
         (fst (main args unknownargs w0)) (snd (main args unknownargs w0)).
Proof.
  rewrite main_unfold.
  set (kw := kwargs_of args unknownargs).
  set (w1 := managed w0).
  destruct ((LanguageServerClient kw;; client_start;;
             try_except_TerminateSignal listen_loop (ret tt);;
             teardown (saved w0) (mk_Process (getpid w0))) w1)
    as [r wf] eqn:Erun.
  unfold bind in Erun. unfold LanguageServerClient in Erun.
  destruct (call_spec (EvClientInit kw) w1) as (l1 & Ht1 & Hf1 & Hok1 & _ & Hn1 & Hl1).
  destruct (call (EvClientInit kw) w1) as [r1 w2] eqn:E1. simpl in *.
  destruct r1 as [u1|e1|h1].
  2,3: inversion Erun; subst; eapply ended_in_construction; eauto; discriminate.
  destruct (Hok1 u1 eq_refl) as (-> & _).
  unfold client_start in Erun.
  destruct (call_spec EvClientStart w2) as (l2 & Ht2 & Hf2 & Hok2 & _ & Hn2 & Hl2).
  destruct (call EvClientStart w2) as [r2 w3] eqn:E2. simpl in *.
  assert (Hf2' : frame w1 w3) by (eapply frame_trans; eauto).
  assert (Hh2 : handlers w2 = installed w0) by (apply (managed_frame w0 w2 Hf1)).
  rewrite Hh2 in Hl2.
  destruct r2 as [u2|e2|h2].
  2,3: inversion Erun; subst; eapply ended_in_start; eauto;
       [rewrite Ht2, Ht1, <- app_assoc; reflexivity | discriminate].
  destruct (Hok2 u2 eq_refl) as (-> & _).
  unfold try_except_TerminateSignal in Erun.
  destruct (listen_loop_spec w3) as (n & l3 & Ht3 & Hf3 & Hno3 & Hfu3 & Hl3).
  destruct (listen_loop w3) as [r3 w4] eqn:E3. simpl in *.
  assert (Hf3' : frame w1 w4) by (eapply frame_trans; eauto).
  assert (Hh3 : handlers w3 = installed w0) by (apply (managed_frame w0 w3 Hf2')).
  rewrite Hh3 in Hl3.
  assert (Ht4 : trace w4 = trace w1 ++ EvClientInit kw :: EvClientStart
                            :: repeat EvClientListen (S n) ++ l3).
  { rewrite Ht3, Ht2, Ht1. repeat (rewrite <- app_assoc; simpl). reflexivity. }
  destruct r3 as [u3|e3|h3].
  - exfalso. eapply Hno3; eauto.
  - destruct (is_TerminateSignal e3) eqn:Ets.
    + unfold ret in Erun.
      assert (Hc : handler_log (installed w0)
                     (@Raise unit (TerminateSignal "Exit process!")) l3).
      { destruct e3; try discriminate. eapply handler_log_caught; eauto. }
      pose proof (teardown_cases w0 w4 Hf3') as Htd.
      rewrite Erun in Htd. simpl in Htd.
      destruct Htd as [(logs & Ha & Hb & Hc' & Hd)|[(Ha & Hb & Hc' & Hd)|(Ha & Hb & Hc' & Hd)]].
      * eapply ended_in_stop with (n := n) (caught := l3) (logs := logs); eauto.
        rewrite Ha, Ht4. repeat (rewrite <- app_assoc; simpl). reflexivity.
      * subst r. eapply ended_in_terminate with (n := n) (caught := l3); eauto.
        rewrite Ha, Ht4. repeat (rewrite <- app_assoc; simpl). reflexivity.
      * subst r. eapply ended_in_wait with (n := n) (caught := l3); eauto.
        -- rewrite Ha, Ht4. repeat (rewrite <- app_assoc; simpl). reflexivity.
        -- eapply self_terminate_Ok_logs; eauto.
    + inversion Erun; subst.
      eapply ended_in_loop with (n := n) (logs := l3); eauto; try discriminate.
      intros e He. inversion He; subst; auto.
  - inversion Erun; subst.
    eapply ended_in_loop with (n := n) (logs := l3); eauto; discriminate.
Qed.

(** ** The manager: construction and [restore()] *)

(** C7.  Constructing the [SignalManager] records, for each monitored
    signal (interrupt, terminate and, on Windows, break), the handler that
    was installed, and installs [exit_gracefully] for it; [restore()] then
    reinstalls exactly the recorded handlers.  Whatever the dispositions
    were, construction followed by [restore()] leaves them as they were
    before the construction. *)
Theorem C7_construct_then_restore (w : world) :
  exists sm w1 w2,
    SignalManager_init w = (Ok sm, w1)
    /\ (forall s, monitored w s = true ->
          recorded sm s = Some (getsignal s (handlers w))
          /\ getsignal s (handlers w1) = exit_gracefully_method)
    /\ (forall s, monitored w s = false ->
          getsignal s (handlers w1) = getsignal s (handlers w))
    /\ restore sm w1 = (Ok tt, w2)
    /\ trace w2 = trace w1 ++ restore_events w
    /\ (forall s h, In (EvSignal s h) (restore_events w) ->
          recorded sm s = Some h)
    /\ handlers w2 = handlers w.
Proof.
  exists (saved w), (managed w).
  eexists. rewrite SignalManager_init_run.
  split; [reflexivity|].
  split.
  { intros s Hs. unfold monitored in Hs. unfold saved, installed, managed.
    destruct s; simpl in *; try discriminate; auto.
    rewrite Hs. auto. }
  split.
  { intros s Hs. unfold monitored in Hs. unfold installed, managed.
    destruct s; simpl in *; try discriminate; auto.
    now rewrite Hs. }
  split.
  { apply restore_run; simpl; auto.
    intros Hw. now rewrite Hw. }
  simpl. split; [reflexivity|]. split; [|reflexivity].
  intros s h. unfold restore_events, saved.
  destruct (WINDOWS w); simpl; intros Hin;
    repeat (destruct Hin as [Hin|Hin]; [inversion Hin; subst; reflexivity|]);
    contradiction.
Qed.

(** ** Runs on a given script *)

Lemma call_Returns e w rest :
  script w = Returns :: rest ->
  call e w = (Ok tt, with_script rest (with_trace (trace w ++ [e]) w)).
Proof.
  intros Hs. unfold call, bind, emit. simpl. rewrite Hs. reflexivity.
Qed.

Lemma call_Raises e x w rest :
  script w = Raises x :: rest ->
  call e w = (Raise x, with_script rest (with_trace (trace w ++ [e]) w)).
Proof.
  intros Hs. unfold call, bind, emit. simpl. rewrite Hs. reflexivity.
Qed.

Lemma call_Delivered_caught e s w rest :
  script w = Delivered s :: rest ->
  getsignal s (handlers w) = exit_gracefully_method ->
  call e w
  = (Raise (TerminateSignal "Exit process!"),
     with_script rest
       (with_trace (trace w ++ [e; captured (signal_number s)]) w)).
Proof.
  intros Hs Hh. unfold call, bind, emit. simpl. rewrite Hs. simpl.
  unfold deliver, bind, signal_getsignal, read. simpl. rewrite Hh.
  rewrite exit_gracefully_run. unfold with_script, with_trace. simpl.
  now rewrite <- app_assoc.
Qed.

Lemma installed_monitored w s :
  monitored w s = true -> getsignal s (installed w) = exit_gracefully_method.
Proof.
  unfold monitored, installed. destruct s; simpl; try discriminate; auto.
  now intros ->.
Qed.

(** [n] quiet iterations, then a stimulus that ends the call with [r]. *)
Lemma while_True_quiet n : forall fuel w st rest r wf,
  (n < fuel)%nat ->
  script w = repeat Returns n ++ st :: rest ->
  (forall w', script w' = st :: rest -> frame w w' ->
     (forall u, r <> Ok u)
     /\ call EvClientListen w'
        = (r, with_script rest (with_trace (trace w' ++ wf) w'))) ->
  while_True fuel client_listen w
  = (r, with_script rest
          (with_trace (trace w ++ repeat EvClientListen n ++ wf) w)).
Proof.
  induction n as [|n IH]; intros fuel w st rest r wf Hfuel Hs Hcall.
  - destruct fuel as [|fuel]; [lia|]. simpl in *.
    unfold bind, client_listen.
    destruct (Hcall w Hs (frame_refl w)) as (Hno & ->).
    destruct r as [u| |]; [now destruct (Hno u)| |]; reflexivity.
  - destruct fuel as [|fuel]; [lia|]. simpl in Hs. simpl while_True.
    unfold bind, client_listen at 1.
    rewrite (call_Returns _ _ _ Hs).
    rewrite (IH fuel _ st rest r wf).
    + unfold with_script, with_trace. simpl.
      now rewrite <- app_assoc.
    + lia.
    + reflexivity.
    + intros w' Hs' Hf'. apply Hcall; auto.
Qed.

Lemma script_length_bound n (st : stimulus) rest :
  (n < S (List.length (repeat Returns n ++ st :: rest)))%nat.
Proof. rewrite length_app, repeat_length. lia. Qed.

Lemma main_started args unknownargs w0 sc :
  script w0 = Returns :: Returns :: sc ->
  main args unknownargs w0
  = (try_except_TerminateSignal listen_loop (ret tt) ;;
     teardown (saved w0) (mk_Process (getpid w0)))
      (relaying w0 (kwargs_of args unknownargs) sc).
Proof.
  intros Hs. rewrite main_unfold. unfold bind at 1.
  unfold LanguageServerClient.
  rewrite (call_Returns _ (managed w0) (Returns :: sc)) by exact Hs.
  unfold bind at 1. unfold client_start.
  rewrite (call_Returns _ _ sc) by reflexivity.
  unfold relaying, managed, with_script, with_trace, with_handlers. simpl.
  repeat (rewrite <- app_assoc; simpl). reflexivity.
Qed.

(** ** A signal before the [try] statement *)

(** C10.  A monitored termination signal delivered once the
    [SignalManager] is constructed but before the [try] statement is
    entered, during [LanguageServerClient(...)] or during
    [client.start()], raises [TerminateSignal] where nothing catches it:
    the exception leaves the block, [client.stop()] is never called and
    the original handlers are never restored. *)
Theorem C10_signal_before_try args unknownargs os pid code t s rest sc :
  monitored (boot os pid code t sc) s = true ->
  sc = Delivered s :: rest \/ sc = Returns :: Delivered s :: rest ->
  fst (main args unknownargs (boot os pid code t sc))
  = Raise (TerminateSignal "Exit process!")
  /\ exit_code (fst (main args unknownargs (boot os pid code t sc))) = Some 1
  /\ (exists calls,
        (calls = [EvClientInit (kwargs_of args unknownargs)]
         \/ calls = [EvClientInit (kwargs_of args unknownargs); EvClientStart])
        /\ trace (snd (main args unknownargs (boot os pid code t sc)))
           = install_events (boot os pid code t sc) ++ calls
             ++ [captured (signal_number s)])
  /\ ~ In EvClientStop
         (trace (snd (main args unknownargs (boot os pid code t sc))))
  /\ handlers (snd (main args unknownargs (boot os pid code t sc)))
     = installed (boot os pid code t sc)
  /\ (forall s', monitored (boot os pid code t sc) s' = true ->
        getsignal s'
          (handlers (snd (main args unknownargs (boot os pid code t sc))))
        = exit_gracefully_method).
Proof.
  intros Hmon Hsc.
  set (w0 := boot os pid code t sc) in *.
  assert (Hh : getsignal s (installed w0) = exit_gracefully_method)
    by (apply installed_monitored; exact Hmon).
  assert (Hrun :
    exists calls,
      (calls = [EvClientInit (kwargs_of args unknownargs)]
       \/ calls = [EvClientInit (kwargs_of args unknownargs); EvClientStart])
      /\ main args unknownargs w0
         = (Raise (TerminateSignal "Exit process!"),
            with_script rest
              (with_trace (install_events w0 ++ calls
                           ++ [captured (signal_number s)])
                 (with_handlers (installed w0) w0)))).
  { rewrite main_unfold. unfold bind at 1. unfold LanguageServerClient.
    destruct Hsc as [Hsc|Hsc].
    - exists [EvClientInit (kwargs_of args unknownargs)]. split; [now left|].
      rewrite (call_Delivered_caught _ s (managed w0) rest); auto.
    - exists [EvClientInit (kwargs_of args unknownargs); EvClientStart].
      split; [now right|].
      rewrite (call_Returns _ (managed w0) (Delivered s :: rest)) by exact Hsc.
      unfold bind at 1. unfold client_start.
      rewrite (call_Delivered_caught _ s _ rest); auto.
      unfold managed, with_script, with_trace, with_handlers. simpl.
      repeat (rewrite <- app_assoc; simpl). reflexivity. }
  destruct Hrun as (calls & Hcalls & ->).
  cbn [fst snd trace handlers with_script with_trace with_handlers exit_code].
  split; [reflexivity|]. split; [reflexivity|].
  split; [exists calls; split; [exact Hcalls|reflexivity]|].
  split.
  { intros Hin. apply in_app_or in Hin. destruct Hin as [Hin|Hin].
    - unfold install_events in Hin. destruct (WINDOWS w0); simpl in Hin;
        repeat (destruct Hin as [Hin|Hin]; [discriminate|]); contradiction.
    - apply in_app_or in Hin. destruct Hin as [Hin|Hin].
      + destruct Hcalls as [-> | ->]; simpl in Hin;
          repeat (destruct Hin as [Hin|Hin]; [discriminate|]); contradiction.
      + simpl in Hin. destruct Hin as [Hin|Hin]; [discriminate|contradiction]. }
  split; [reflexivity|].
  intros s' Hs'. now apply installed_monitored.
Qed.

Lemma C10_signal_before_try_witness :
  monitored (boot "posix" 4242 15 startup_table
               [Returns; Delivered SIGTERM; Returns]) SIGTERM = true
  /\ fst (main sample_args ["--verbose"]
            (boot "posix" 4242 15 startup_table
               [Returns; Delivered SIGTERM; Returns]))
     = Raise (TerminateSignal "Exit process!").
Proof.
  split; [reflexivity|].
  apply (C10_signal_before_try sample_args ["--verbose"] "posix" 4242 15
           startup_table SIGTERM [Returns]).
  - reflexivity.
  - right. reflexivity.
Defined.

(** ** What the pieces of a trace are made of *)

Lemma In_install_events w e :
  In e (install_events w) -> is_signal_call e = true.
Proof.
  unfold install_events. destruct (WINDOWS w); simpl; intros H;
    repeat (destruct H as [<-|H]; [reflexivity|]); contradiction.
Qed.

Lemma In_restore_events w e :
  In e (restore_events w) -> is_signal_call e = true.
Proof.
  unfold restore_events. destruct (WINDOWS w); simpl; intros H;
    repeat (destruct H as [<-|H]; [reflexivity|]); contradiction.
Qed.

Lemma In_handler_log {A} t (r : outcome A) logs e :
  handler_log t r logs -> In e logs -> is_log e = true.
Proof.
  intros [->|(s & -> & _)]; simpl; [contradiction|].
  intros [<-|[]]. reflexivity.
Qed.

Lemma In_self_terminate_logs w e :
  In e (self_terminate_logs w) -> is_log e = true.
Proof.
  unfold self_terminate_logs. destruct (WINDOWS w); [contradiction|].
  destruct (on_sigterm (handlers w)); simpl; try contradiction.
  intros [<-|[]]. reflexivity.
Qed.

Lemma In_listens n e : In e (repeat EvClientListen n) -> e = EvClientListen.
Proof. intros H. now apply repeat_spec in H. Qed.

(** Takes a membership in a trace apart, piece by piece. *)
Ltac in_pieces H :=
  repeat match type of H with
    | In _ (_ ++ _) => apply in_app_or in H; destruct H as [H|H]
    | In _ (_ :: _) => destruct H as [H|H]
    | In _ [] => contradiction
    | In _ (install_events _) => apply In_install_events in H
    | In _ (restore_events _) => apply In_restore_events in H
    | In _ (self_terminate_logs _) => apply In_self_terminate_logs in H
    | In _ (repeat EvClientListen _) => apply In_listens in H
    end.

Ltac in_logs H :=
  match goal with
  | L : handler_log _ _ ?l |- _ =>
      match type of H with In _ l => apply (In_handler_log _ _ _ _ L) in H end
  end.

(** ** A signal or an exception inside the loop *)

Lemma loop_relayed w0 kw n st rest r last :
  (forall u, r <> Ok u) ->
  (forall w', script w' = st :: rest -> frame (relaying w0 kw []) w' ->
     call EvClientListen w'
     = (r, with_script rest
             (with_trace (trace w' ++ EvClientListen :: last) w'))) ->
  listen_loop (relaying w0 kw (repeat Returns n ++ st :: rest))
  = (r, left_loop w0 kw n last rest).
Proof.
  intros Hno Hcall. unfold listen_loop.
  rewrite (while_True_quiet n _ _ st rest r (EvClientListen :: last)).
  - assert (Hrep : repeat EvClientListen n ++ EvClientListen :: last
                   = repeat EvClientListen (S n) ++ last).
    { change (EvClientListen :: last) with ([EvClientListen] ++ last).
      rewrite app_assoc, <- repeat_cons. reflexivity. }
    rewrite Hrep.
    unfold left_loop, relaying, with_script, with_trace, with_handlers.
    simpl. repeat (rewrite <- app_assoc; simpl). reflexivity.
  - apply script_length_bound.
  - reflexivity.
  - intros w' Hs Hf. split; [exact Hno|]. apply Hcall; auto.
Qed.

Lemma main_signalled args unknownargs w0 n s rest :
  script w0 = relayed n (Delivered s) rest ->
  monitored w0 s = true ->
  main args unknownargs w0
  = teardown (saved w0) (mk_Process (getpid w0))
      (left_loop w0 (kwargs_of args unknownargs) n
                 [captured (signal_number s)] rest).
Proof.
  intros Hs Hmon. rewrite (main_started _ _ _ _ Hs).
  unfold bind at 1. unfold try_except_TerminateSignal.
  rewrite (loop_relayed w0 _ n (Delivered s) rest
             (Raise (TerminateSignal "Exit process!"))
             [captured (signal_number s)]).
  - reflexivity.
  - discriminate.
  - intros w' Hs' Hf. apply call_Delivered_caught; auto.
    destruct Hf as (_ & _ & _ & ->). simpl.
    now apply installed_monitored.
Qed.

Lemma main_raised args unknownargs w0 n e rest :
  script w0 = relayed n (Raises e) rest ->
  main args unknownargs w0
  = if is_TerminateSignal e
    then teardown (saved w0) (mk_Process (getpid w0))
           (left_loop w0 (kwargs_of args unknownargs) n [] rest)
    else (Raise e, left_loop w0 (kwargs_of args unknownargs) n [] rest).
Proof.
  intros Hs. rewrite (main_started _ _ _ _ Hs).
  unfold bind at 1. unfold try_except_TerminateSignal.
  rewrite (loop_relayed w0 _ n (Raises e) rest (Raise e) []).
  - destruct (is_TerminateSignal e); reflexivity.
  - discriminate.
  - intros w' Hs' Hf. apply call_Raises; auto.
Qed.

Lemma teardown_starts_with_stop w0 w :
  frame (managed w0) w ->
  exists after,
    trace (snd (teardown (saved w0) (mk_Process (getpid w0)) w))
    = trace w ++ EvClientStop :: after.
Proof.
  intros Hf.
  destruct (teardown_cases w0 w Hf) as [(l & H & _)|[(H & _)|(H & _)]];
    rewrite H; eauto.
Qed.

(** ** The handler *)

(** C1, as stated, fails: the handler does not set a flag and return.
    On [SIGINT] it writes its log record and raises [TerminateSignal] in
    the code it interrupted. *)
Lemma C1_handler_does_not_return :
  exit_gracefully (signal_number SIGINT) tt
    (managed (boot "posix" 4242 15 startup_table [Returns]))
  = (Raise (TerminateSignal "Exit process!"),
     with_trace
       [EvSignal SIGINT exit_gracefully_method;
        EvSignal SIGTERM exit_gracefully_method;
        EvLogInfo "Termination signal (2) captured, initiating exit sequence"]
       (managed (boot "posix" 4242 15 startup_table [Returns])))
  /\ ~ handler_returns (signal_number SIGINT)
         (managed (boot "posix" 4242 15 startup_table [Returns])).
Proof.
  split; [reflexivity|].
  intros (w' & H). discriminate H.
Qed.

(** C1, amended.  On a monitored termination signal the handler writes
    one log record and raises [TerminateSignal]; it does no teardown and
    no blocking work itself: nothing else in the world changes.  When the
    signal arrives while the loop runs, the exception ends the iteration
    in progress and the teardown follows in the main block, starting with
    [client.stop()]. *)
Theorem C1_handler_logs_and_raises args unknownargs os pid code t s n rest :
  monitored (boot os pid code t (relayed n (Delivered s) rest)) s = true ->
  (forall w,
      exit_gracefully (signal_number s) tt w
      = (Raise (TerminateSignal "Exit process!"),
         with_trace (trace w ++ [captured (signal_number s)]) w))
  /\ exists after,
      trace (snd (main args unknownargs
                    (boot os pid code t (relayed n (Delivered s) rest))))
      = install_events (boot os pid code t (relayed n (Delivered s) rest))
        ++ [EvClientInit (kwargs_of args unknownargs); EvClientStart]
        ++ repeat EvClientListen (S n)
        ++ [captured (signal_number s)]
        ++ EvClientStop :: after.
Proof.
  intros Hmon. split; [intros w; apply exit_gracefully_run|].
  set (w0 := boot os pid code t (relayed n (Delivered s) rest)) in *.
  rewrite (main_signalled args unknownargs w0 n s rest eq_refl Hmon).
  destruct (teardown_starts_with_stop w0
              (left_loop w0 (kwargs_of args unknownargs) n
                         [captured (signal_number s)] rest))
    as (after & Hafter).
  { repeat split. }
  exists after. rewrite Hafter.
  unfold left_loop. cbn [trace with_script with_trace w0 boot app].
  repeat (rewrite <- app_assoc; simpl). reflexivity.
Qed.

Lemma C1_handler_logs_and_raises_witness :
  monitored (boot "nt" 4242 15 startup_table
               (relayed 1 (Delivered SIGBREAK) [Returns])) SIGBREAK = true
  /\ exists after,
      trace (snd (main sample_args []
                    (boot "nt" 4242 15 startup_table
                       (relayed 1 (Delivered SIGBREAK) [Returns]))))
      = install_events (boot "nt" 4242 15 startup_table
                          (relayed 1 (Delivered SIGBREAK) [Returns]))
        ++ [EvClientInit (kwargs_of sample_args []); EvClientStart]
        ++ repeat EvClientListen 2
        ++ [captured (signal_number SIGBREAK)]
        ++ EvClientStop :: after.
Proof.
  split; [reflexivity|].
  apply (C1_handler_logs_and_raises sample_args [] "nt" 4242 15
           startup_table SIGBREAK 1 [Returns]).
  reflexivity.
Defined.

(** ** Exceptions in the loop *)

(** C5, as stated, fails: an error raised by [client.listen()] that is
    not [TerminateSignal] is caught by nothing.  The block ends with the
    exception; [client.stop()] is not called and the manager's handlers
    stay installed. *)
Lemma C5_other_error_skips_teardown :
  fst (main sample_args []
         (boot "posix" 4242 15 startup_table
            [Returns; Returns; Returns; Raises (OtherError "ConnectionError")]))
  = Raise (OtherError "ConnectionError")
  /\ trace (snd (main sample_args []
         (boot "posix" 4242 15 startup_table
            [Returns; Returns; Returns; Raises (OtherError "ConnectionError")])))
     = [EvSignal SIGINT exit_gracefully_method;
        EvSignal SIGTERM exit_gracefully_method;
        EvClientInit (kwargs_of sample_args []);
        EvClientStart; EvClientListen; EvClientListen]
  /\ ~ In EvClientStop
         (trace (snd (main sample_args []
            (boot "posix" 4242 15 startup_table
               [Returns; Returns; Returns;
                Raises (OtherError "ConnectionError")])))).
Proof.
  split; [reflexivity|]. split; [reflexivity|].
  cbv. intros H.
  repeat (destruct H as [H|H]; [discriminate H|]). exact H.
Qed.

(** C5, amended.  While the loop runs, a monitored termination signal,
    which the handler turns into [TerminateSignal], takes the driver to
    its teardown, starting with [client.stop()].  Any other exception
    raised by [client.listen()] leaves the block uncaught: the teardown is
    skipped, [client.stop()] is not called and the handlers are not
    restored. *)
Theorem C5_only_TerminateSignal_is_caught
    args unknownargs os pid code t s e n rest :
  monitored (boot os pid code t (relayed n (Delivered s) rest)) s = true ->
  is_TerminateSignal e = false ->
  (exists after,
      trace (snd (main args unknownargs
                    (boot os pid code t (relayed n (Delivered s) rest))))
      = install_events (boot os pid code t (relayed n (Delivered s) rest))
        ++ [EvClientInit (kwargs_of args unknownargs); EvClientStart]
        ++ repeat EvClientListen (S n)
        ++ [captured (signal_number s)]
        ++ EvClientStop :: after)
  /\ fst (main args unknownargs
            (boot os pid code t (relayed n (Raises e) rest)))
     = Raise e
  /\ trace (snd (main args unknownargs
                   (boot os pid code t (relayed n (Raises e) rest))))
     = install_events (boot os pid code t (relayed n (Raises e) rest))
       ++ [EvClientInit (kwargs_of args unknownargs); EvClientStart]
       ++ repeat EvClientListen (S n)
  /\ ~ In EvClientStop
         (trace (snd (main args unknownargs
                        (boot os pid code t (relayed n (Raises e) rest)))))
  /\ handlers (snd (main args unknownargs
                      (boot os pid code t (relayed n (Raises e) rest))))
     = installed (boot os pid code t (relayed n (Raises e) rest)).
Proof.
  intros Hmon He. split.
  { set (w0 := boot os pid code t (relayed n (Delivered s) rest)) in *.
    rewrite (main_signalled args unknownargs w0 n s rest eq_refl Hmon).
    destruct (teardown_starts_with_stop w0
                (left_loop w0 (kwargs_of args unknownargs) n
                           [captured (signal_number s)] rest))
      as (after & Hafter).
    { repeat split. }
    exists after. rewrite Hafter.
    unfold left_loop. cbn [trace with_script with_trace w0 boot app].
    repeat (rewrite <- app_assoc; simpl). reflexivity. }
  set (w0 := boot os pid code t (relayed n (Raises e) rest)).
  rewrite (main_raised args unknownargs w0 n e rest eq_refl). rewrite He.
  cbn [fst snd]. unfold left_loop.
  cbn [trace handlers with_script with_trace with_handlers w0 boot app].
  rewrite app_nil_r.
  split; [reflexivity|]. split; [reflexivity|]. split; [|reflexivity].
  intros H. in_pieces H; discriminate.
Qed.

Lemma C5_only_TerminateSignal_is_caught_witness :
  monitored (boot "posix" 4242 15 startup_table
               (relayed 2 (Delivered SIGTERM) [Returns])) SIGTERM = true
  /\ is_TerminateSignal KeyboardInterrupt = false
  /\ fst (main sample_args ["--stdio"]
            (boot "posix" 4242 15 startup_table
               (relayed 2 (Raises KeyboardInterrupt) [Returns])))
     = Raise KeyboardInterrupt.
Proof.
  split; [reflexivity|]. split; [reflexivity|].
  apply (C5_only_TerminateSignal_is_caught sample_args ["--stdio"] "posix"
           4242 15 startup_table SIGTERM KeyboardInterrupt 2 [Returns]);
    reflexivity.
Defined.

(** ** The order of the teardown *)

Lemma from_stop_none tr :
  ~ In EvClientStop tr -> from_stop tr = [].
Proof.
  induction tr as [|e tr IH]; intros H; [reflexivity|].
  simpl in *. destruct e; try (apply IH; tauto).
  exfalso. apply H. now left.
Qed.

Lemma from_stop_first pre post :
  ~ In EvClientStop pre ->
  from_stop (pre ++ EvClientStop :: post) = EvClientStop :: post.
Proof.
  induction pre as [|e pre IH]; intros H; [reflexivity|].
  simpl in *. destruct e; try (apply IH; tauto).
  exfalso. apply H. now left.
Qed.

Lemma without_logs_app a b :
  without_logs (a ++ b) = without_logs a ++ without_logs b.
Proof. apply filter_app. Qed.

Lemma without_logs_logs l :
  (forall e, In e l -> is_log e = true) -> without_logs l = [].
Proof.
  induction l as [|e l IH]; intros H; [reflexivity|].
  simpl. rewrite (H e (or_introl eq_refl)). simpl.
  apply IH. intros e' He'. apply H. now right.
Qed.

Lemma without_logs_calls l :
  (forall e, In e l -> is_log e = false) -> without_logs l = l.
Proof.
  induction l as [|e l IH]; intros H; [reflexivity|].
  simpl. rewrite (H e (or_introl eq_refl)). simpl. f_equal.
  apply IH. intros e' He'. apply H. now right.
Qed.

Lemma without_logs_restore_events w :
  without_logs (restore_events w) = restore_events w.
Proof.
  apply without_logs_calls. intros e H. apply In_restore_events in H.
  destruct e; try discriminate; reflexivity.
Qed.

Lemma without_logs_handler_log {A} t (r : outcome A) logs :
  handler_log t r logs -> without_logs logs = [].
Proof.
  intros H. apply without_logs_logs. intros e He.
  eapply In_handler_log; eauto.
Qed.

Lemma without_logs_self_terminate_logs w :
  without_logs (self_terminate_logs w) = [].
Proof.
  apply without_logs_logs. intros e. apply In_self_terminate_logs.
Qed.

(** C3, as stated, fails: [restore()] is not the last step.  In a run
    shut down by [SIGINT] the handlers are restored first and
    [process.terminate()] comes after. *)
Lemma C3_restore_precedes_terminate :
  teardown_calls
    (trace (snd (main sample_args []
                   (boot "posix" 4242 15 startup_table
                      (relayed 0 (Delivered SIGINT) [Returns])))))
  = [EvClientStop; EvSignal SIGINT default_int_handler;
     EvSignal SIGTERM SIG_DFL; EvTerminate 4242]
  /\ ~ restoration_is_last
         (trace (snd (main sample_args []
                        (boot "posix" 4242 15 startup_table
                           (relayed 0 (Delivered SIGINT) [Returns]))))).
Proof.
  split; [reflexivity|].
  intros H.
  destruct (H [EvClientStop] SIGINT default_int_handler
              [EvSignal SIGTERM SIG_DFL; EvTerminate 4242] eq_refl 4242)
    as (Hterm & _).
  apply Hterm. simpl. auto.
Qed.

(** C3, amended.  In every run the calls of the teardown come in one
    fixed order: [client.stop()], then the restoration of the original
    handlers ([SIGINT], [SIGTERM] and, on Windows, [SIGBREAK]), then
    [process.terminate()] and [process.wait()] on the own process.  The
    restoration comes before the terminate request, not after it; a run
    shows a prefix of the sequence, cut where it ended. *)
Theorem C3_teardown_order args unknownargs os pid code t sc :
  teardown_calls
    (trace (snd (main args unknownargs (boot os pid code t sc)))) = []
  \/ teardown_calls
       (trace (snd (main args unknownargs (boot os pid code t sc))))
     = [EvClientStop]
  \/ teardown_calls
       (trace (snd (main args unknownargs (boot os pid code t sc))))
     = EvClientStop :: restore_events (boot os pid code t sc)
       ++ [EvTerminate pid]
  \/ teardown_calls
       (trace (snd (main args unknownargs (boot os pid code t sc))))
     = EvClientStop :: restore_events (boot os pid code t sc)
       ++ [EvTerminate pid; EvWait pid].
Proof.
  set (w0 := boot os pid code t sc).
  pose proof (main_runs args unknownargs w0) as Hrun.
  destruct (main args unknownargs w0) as [r wf]. simpl fst in *. simpl snd in *.
  unfold teardown_calls.
  inversion Hrun as
      [logs r' w' Ht Hf Hno Hl
      |logs r' w' Ht Hf Hno Hl
      |n logs r' w' Ht Hf Hno Hts Hfu Hl
      |n caught logs r' w' Ht Hf Hno Hc Hl
      |n caught w' Ht Hf Hno Hc
      |n caught w' Ht Hf Hst Hsl Hc]; subst; rewrite Ht; clear Ht;
    cbn [managed trace with_trace with_handlers w0 boot app].
  1-3: left; rewrite from_stop_none; [reflexivity|];
       intros H; in_pieces H; try discriminate; try in_logs H; discriminate.
  - right; left.
    replace (install_events w0
             ++ EvClientInit (kwargs_of args unknownargs) :: EvClientStart
                :: repeat EvClientListen (S n) ++ caught
                ++ EvClientStop :: logs)
      with ((install_events w0
             ++ EvClientInit (kwargs_of args unknownargs) :: EvClientStart
                :: repeat EvClientListen (S n) ++ caught)
            ++ EvClientStop :: logs)
      by (repeat (rewrite <- app_assoc; simpl); reflexivity).
    rewrite from_stop_first.
    + change (without_logs (EvClientStop :: logs))
        with (EvClientStop :: without_logs logs).
      now rewrite (without_logs_handler_log _ _ _ Hl).
    + intros H; in_pieces H; try discriminate; try in_logs H; discriminate.
  - right; right; left.
    replace (install_events w0
             ++ EvClientInit (kwargs_of args unknownargs) :: EvClientStart
                :: repeat EvClientListen (S n) ++ caught
                ++ EvClientStop :: restore_events w0
                ++ EvTerminate (getpid w0) :: self_terminate_logs w0)
      with ((install_events w0
             ++ EvClientInit (kwargs_of args unknownargs) :: EvClientStart
                :: repeat EvClientListen (S n) ++ caught)
            ++ EvClientStop :: restore_events w0
               ++ EvTerminate (getpid w0) :: self_terminate_logs w0)
      by (repeat (rewrite <- app_assoc; simpl); reflexivity).
    rewrite from_stop_first.
    + change (without_logs (EvClientStop :: restore_events w0
                ++ EvTerminate (getpid w0) :: self_terminate_logs w0))
        with (EvClientStop :: without_logs (restore_events w0
                ++ EvTerminate (getpid w0) :: self_terminate_logs w0)).
      rewrite without_logs_app, without_logs_restore_events.
      change (without_logs (EvTerminate (getpid w0) :: self_terminate_logs w0))
        with (EvTerminate (getpid w0)
              :: without_logs (self_terminate_logs w0)).
      rewrite without_logs_self_terminate_logs. reflexivity.
    + intros H; in_pieces H; try discriminate; try in_logs H; discriminate.
  - right; right; right.
    replace (install_events w0
             ++ EvClientInit (kwargs_of args unknownargs) :: EvClientStart
                :: repeat EvClientListen (S n) ++ caught
                ++ EvClientStop :: restore_events w0
                ++ [EvTerminate (getpid w0); EvWait (getpid w0)])
      with ((install_events w0
             ++ EvClientInit (kwargs_of args unknownargs) :: EvClientStart
                :: repeat EvClientListen (S n) ++ caught)
            ++ EvClientStop :: restore_events w0
               ++ [EvTerminate (getpid w0); EvWait (getpid w0)])
      by (repeat (rewrite <- app_assoc; simpl); reflexivity).
    rewrite from_stop_first.
    + change (without_logs (EvClientStop :: restore_events w0
                ++ [EvTerminate (getpid w0); EvWait (getpid w0)]))
        with (EvClientStop :: without_logs (restore_events w0
                ++ [EvTerminate (getpid w0); EvWait (getpid w0)])).
      rewrite without_logs_app, without_logs_restore_events. reflexivity.
    + intros H; in_pieces H; try discriminate; try in_logs H; discriminate.
Qed.

(** ** The loop and the phases of a run *)

Lemma phases_app a b : phases (a ++ b) = phases a ++ phases b.
Proof.
  induction a as [|e a IH]; [reflexivity|].
  simpl. destruct (phase_of e); simpl; now rewrite IH.
Qed.

Lemma phases_none l :
  (forall e, In e l -> phase_of e = None) -> phases l = [].
Proof.
  induction l as [|e l IH]; intros H; [reflexivity|].
  simpl. rewrite (H e (or_introl eq_refl)).
  apply IH. intros e' He'. apply H. now right.
Qed.

Lemma phases_install_events w : phases (install_events w) = [].
Proof.
  apply phases_none. intros e H. apply In_install_events in H.
  destruct e; try discriminate; reflexivity.
Qed.

Lemma phases_restore_events w : phases (restore_events w) = [].
Proof.
  apply phases_none. intros e H. apply In_restore_events in H.
  destruct e; try discriminate; reflexivity.
Qed.

Lemma phases_handler_log {A} t (r : outcome A) logs :
  handler_log t r logs -> phases logs = [].
Proof.
  intros H. apply phases_none. intros e He.
  apply (In_handler_log _ _ _ _ H) in He.
  destruct e; try discriminate; reflexivity.
Qed.

Lemma phases_self_terminate_logs w : phases (self_terminate_logs w) = [].
Proof.
  apply phases_none. intros e H. apply In_self_terminate_logs in H.
  destruct e; try discriminate; reflexivity.
Qed.

Lemma phases_listens n :
  phases (repeat EvClientListen n) = repeat running n.
Proof. induction n; simpl; congruence. Qed.

Lemma advances_running n l :
  advances running l = true ->
  advances running (repeat running n ++ l) = true.
Proof. induction n; simpl; auto. Qed.

(** C2, as stated, fails: there is no flag for the loop to read.  A
    [SIGINT] during the second [client.listen()] ends the loop by the
    exception raised inside that call; the loop does not return. *)
Lemma C2_loop_left_by_exception :
  fst (listen_loop
         (relaying (boot "posix" 4242 15 startup_table [])
                   (kwargs_of sample_args [])
                   [Returns; Delivered SIGINT; Returns]))
  = Raise (TerminateSignal "Exit process!")
  /\ ~ loop_returns
         (relaying (boot "posix" 4242 15 startup_table [])
                   (kwargs_of sample_args [])
                   [Returns; Delivered SIGINT; Returns]).
Proof.
  split; [reflexivity|].
  intros (u & w' & H). discriminate H.
Qed.

Ltac phases_of_pieces :=
  repeat (rewrite ?phases_app, ?phases_install_events,
            ?phases_restore_events, ?phases_self_terminate_logs,
            ?phases_listens;
          cbn [phases phase_of app repeat]).

(** C2, amended.  The driver keeps no shutdown flag.  Its loop is
    [while True]: it has no condition to read, never returns, and is left
    only by an exception raised in [client.listen()] or by the end of the
    process.  The progress of a run is carried by its control flow and
    only advances: construction and start, then the relay loop, then
    [client.stop()], then [terminate()] and [wait()]; no call of an
    earlier phase follows a call of a later one. *)
Theorem C2_no_flag_phases_advance args unknownargs os pid code t sc :
  (forall w u, fst (listen_loop w) <> Ok u)
  /\ (forall w, fst (listen_loop w) <> Halt OutOfFuel)
  /\ advances starting
       (phases (trace (snd (main args unknownargs (boot os pid code t sc)))))
     = true.
Proof.
  split.
  { intros w. destruct (listen_loop_spec w) as (_ & _ & _ & _ & H & _).
    exact H. }
  split.
  { intros w. destruct (listen_loop_spec w) as (_ & _ & _ & _ & _ & H & _).
    exact H. }
  set (w0 := boot os pid code t sc).
  pose proof (main_runs args unknownargs w0) as Hrun.
  destruct (main args unknownargs w0) as [r wf]. simpl fst in *. simpl snd in *.
  inversion Hrun as
      [logs r' w' Ht Hf Hno Hl
      |logs r' w' Ht Hf Hno Hl
      |n logs r' w' Ht Hf Hno Hts Hfu Hl
      |n caught logs r' w' Ht Hf Hno Hc Hl
      |n caught w' Ht Hf Hno Hc
      |n caught w' Ht Hf Hst Hsl Hc]; subst; rewrite Ht; clear Ht;
    cbn [managed trace with_trace with_handlers w0 boot app];
    phases_of_pieces;
    repeat match goal with
      | L : handler_log _ _ ?l |- context [phases ?l] =>
          rewrite (phases_handler_log _ _ _ L)
      end;
    phases_of_pieces; cbn [advances phase_rank Nat.leb andb];
    try reflexivity; apply advances_running; reflexivity.
Qed.

(** ** How a shutdown ends *)

Lemma teardown_stop_returns w0 w rest :
  frame (managed w0) w ->
  script w = Returns :: rest ->
  fst (teardown (saved w0) (mk_Process (getpid w0)) w) = shutdown_outcome w0
  /\ handlers (snd (teardown (saved w0) (mk_Process (getpid w0)) w))
     = handlers w0
  /\ exists after,
       trace (snd (teardown (saved w0) (mk_Process (getpid w0)) w))
       = trace w ++ EvClientStop :: restore_events w0
         ++ EvTerminate (getpid w0) :: after.
Proof.
  intros Hf Hs. rewrite teardown_unfold. unfold client_stop.
  rewrite (call_Returns _ _ _ Hs).
  destruct (managed_frame _ _ Hf) as (Hos & Hpid & Hcode & Hh).
  set (w1 := with_script rest _).
  rewrite (restore_run w0 w1).
  2: exact Hos.
  2: { subst w1. simpl. rewrite Hh. reflexivity. }
  2: { intros Hw. subst w1. simpl. rewrite Hh. unfold installed.
       now rewrite Hw. }
  set (w2 := with_trace _ _).
  rewrite (Process_terminate_self w0 w2) by (subst w2 w1; simpl; auto).
  set (w3 := with_trace _ _).
  unfold shutdown_outcome.
  destruct (self_terminate w0) as [u|e|h] eqn:Est.
  - rewrite (Process_wait_self w0 w3) by (subst w3 w2 w1; simpl; auto).
    simpl. split; [reflexivity|]. split; [reflexivity|].
    exists (self_terminate_logs w0 ++ [EvWait (getpid w0)]).
    repeat (rewrite <- app_assoc; simpl). reflexivity.
  - simpl. split; [reflexivity|]. split; [reflexivity|].
    exists (self_terminate_logs w0).
    repeat (rewrite <- app_assoc; simpl). reflexivity.
  - simpl. split; [reflexivity|]. split; [reflexivity|].
    exists (self_terminate_logs w0).
    repeat (rewrite <- app_assoc; simpl). reflexivity.
Qed.

Lemma left_loop_frame w0 kw n last rest :
  frame (managed w0) (left_loop w0 kw n last rest).
Proof. repeat split. Qed.

(** C4, as stated, fails: a shutdown by a termination signal does not end
    with exit code 0.  After [client.stop()] and [restore()] the driver
    sends [SIGTERM] to itself; with the default disposition back in place
    the process is killed by that signal and has no exit code. *)
Lemma C4_clean_shutdown_is_killed :
  fst (main sample_args []
         (boot "posix" 4242 15 startup_table
            (relayed 1 (Delivered SIGTERM) [Returns])))
  = Halt (KilledBy SIGTERM)
  /\ exit_code
       (fst (main sample_args []
               (boot "posix" 4242 15 startup_table
                  (relayed 1 (Delivered SIGTERM) [Returns]))))
     <> Some 0.
Proof. split; [reflexivity|]. discriminate. Qed.

(** C4, amended.  In every run in which a monitored termination signal
    ends the loop and [client.stop()] returns, the driver restores the
    original handlers and then sends the terminate request to its own
    process; no run of the block reaches the end of the script.  Where
    the [SIGTERM] disposition before start-up was the default and the
    platform is not Windows, the process is killed by that [SIGTERM] and
    has no exit code, so its exit code is not 0; on Windows the process
    exits with the code [TerminateProcess] is given. *)
Theorem C4_shutdown_terminates_own_process
    args unknownargs os pid code t s n rest :
  monitored (boot os pid code t (relayed n (Delivered s) (Returns :: rest))) s
  = true ->
  (exists after,
      trace (snd (main args unknownargs
                    (boot os pid code t
                       (relayed n (Delivered s) (Returns :: rest)))))
      = install_events (boot os pid code t [])
        ++ [EvClientInit (kwargs_of args unknownargs); EvClientStart]
        ++ repeat EvClientListen (S n)
        ++ [captured (signal_number s); EvClientStop]
        ++ restore_events (boot os pid code t [])
        ++ EvTerminate pid :: after)
  /\ handlers (snd (main args unknownargs
                      (boot os pid code t
                         (relayed n (Delivered s) (Returns :: rest)))))
     = t
  /\ (String.eqb os "nt" = false -> on_sigterm t = SIG_DFL ->
      fst (main args unknownargs
             (boot os pid code t (relayed n (Delivered s) (Returns :: rest))))
      = Halt (KilledBy SIGTERM)
      /\ exit_code
           (fst (main args unknownargs
                   (boot os pid code t
                      (relayed n (Delivered s) (Returns :: rest)))))
         = None)
  /\ (String.eqb os "nt" = true ->
      fst (main args unknownargs
             (boot os pid code t (relayed n (Delivered s) (Returns :: rest))))
      = Halt (Exited code)
      /\ exit_code
           (fst (main args unknownargs
                   (boot os pid code t
                      (relayed n (Delivered s) (Returns :: rest)))))
         = Some code)
  /\ (forall sc u,
        fst (main args unknownargs (boot os pid code t sc)) <> Ok u).
Proof.
  intros Hmon.
  set (w0 := boot os pid code t (relayed n (Delivered s) (Returns :: rest)))
    in *.
  rewrite (main_signalled args unknownargs w0 n s (Returns :: rest)
             eq_refl Hmon).
  destruct (teardown_stop_returns w0
              (left_loop w0 (kwargs_of args unknownargs) n
                         [captured (signal_number s)] (Returns :: rest))
              rest (left_loop_frame _ _ _ _ _) eq_refl)
    as (Hfst & Hh & after & Htr).
  split; [|split; [exact Hh|]].
  { exists after. rewrite Htr. unfold left_loop.
    cbn [trace handlers with_script with_trace with_handlers w0 boot app
         getpid].
    unfold install_events, restore_events, WINDOWS. cbn [os_name handlers].
    repeat (rewrite <- app_assoc; simpl). reflexivity. }
  rewrite Hfst.
  unfold shutdown_outcome, self_terminate, WINDOWS.
  cbn [os_name handlers kill_exit_code w0 boot].
  split; [|split].
  - intros -> ->. split; reflexivity.
  - intros ->. split; reflexivity.
  - intros sc u.
    pose proof (main_runs args unknownargs (boot os pid code t sc)) as Hrun.
    destruct (main args unknownargs (boot os pid code t sc)) as [r wf].
    simpl fst in *. simpl snd in *.
    inversion Hrun; subst; auto; discriminate.
Qed.

Lemma C4_shutdown_terminates_own_process_witness :
  monitored (boot "posix" 4242 15 startup_table
               (relayed 3 (Delivered SIGINT) [Returns])) SIGINT = true
  /\ fst (main sample_args []
            (boot "posix" 4242 15 startup_table
               (relayed 3 (Delivered SIGINT) [Returns])))
     = Halt (KilledBy SIGTERM).
Proof.
  split; [reflexivity|].
  destruct (C4_shutdown_terminates_own_process sample_args [] "posix" 4242 15
              startup_table SIGINT 3 [] eq_refl) as (_ & _ & H & _).
  apply H; reflexivity.
Defined.

Lemma teardown_stop_returns_trace w0 w rest :
  frame (managed w0) w ->
  script w = Returns :: rest ->
  trace (snd (teardown (saved w0) (mk_Process (getpid w0)) w))
  = trace w ++ EvClientStop :: restore_events w0
    ++ EvTerminate (getpid w0) :: self_terminate_logs w0
    ++ match self_terminate w0 with
       | Ok _ => [EvWait (getpid w0)]
       | _ => []
       end.
Proof.
  intros Hf Hs. rewrite teardown_unfold. unfold client_stop.
  rewrite (call_Returns _ _ _ Hs).
  destruct (managed_frame _ _ Hf) as (Hos & Hpid & Hcode & Hh).
  set (w1 := with_script rest _).
  rewrite (restore_run w0 w1).
  2: exact Hos.
  2: { subst w1. simpl. rewrite Hh. reflexivity. }
  2: { intros Hw. subst w1. simpl. rewrite Hh. unfold installed.
       now rewrite Hw. }
  set (w2 := with_trace _ _).
  rewrite (Process_terminate_self w0 w2) by (subst w2 w1; simpl; auto).
  set (w3 := with_trace _ _).
  destruct (self_terminate w0) as [u|e|h] eqn:Est.
  - rewrite (Process_wait_self w0 w3) by (subst w3 w2 w1; simpl; auto).
    simpl. repeat (rewrite <- app_assoc; simpl). reflexivity.
  - simpl. repeat (rewrite <- app_assoc; simpl). now rewrite app_nil_r.
  - simpl. repeat (rewrite <- app_assoc; simpl). now rewrite app_nil_r.
Qed.

(** ** The process handle *)

(** C9.  [psutil.Process()] without a pid denotes the calling process, so
    the [terminate()] and [wait()] that end the shutdown sequence are
    applied to the driver itself, never to another process such as the
    language server it spawned.  In every run in which a monitored signal
    ends the loop and [client.stop()] returns, the driver restores its
    original handlers and then sends the terminate request to its own
    pid: with the default [SIGTERM] disposition back in place it is the
    driver that is killed, and with [SIGTERM] ignored the driver goes on
    to [wait()] for its own pid. *)
Theorem C9_terminate_targets_own_process
    args unknownargs os pid code t sc s n rest :
  monitored (boot os pid code t sc) s = true ->
  psutil_Process None (boot os pid code t sc)
  = (Ok (mk_Process pid), boot os pid code t sc)
  /\ (forall p,
        In (EvTerminate p)
           (trace (snd (main args unknownargs (boot os pid code t sc))))
        \/ In (EvWait p)
             (trace (snd (main args unknownargs (boot os pid code t sc)))) ->
        p = pid)
  /\ (forall p,
        In (EvTerminate p)
           (trace (snd (main args unknownargs (boot os pid code t sc)))) ->
        exists before after,
          trace (snd (main args unknownargs (boot os pid code t sc)))
          = before ++ EvClientStop :: restore_events (boot os pid code t sc)
            ++ EvTerminate pid :: after
          /\ (forall q, ~ In (EvTerminate q) before)
          /\ handlers (snd (main args unknownargs (boot os pid code t sc))) = t)
  /\ (exists after,
        trace (snd (main args unknownargs
                      (boot os pid code t
                         (relayed n (Delivered s) (Returns :: rest)))))
        = install_events (boot os pid code t [])
          ++ [EvClientInit (kwargs_of args unknownargs); EvClientStart]
          ++ repeat EvClientListen (S n)
          ++ [captured (signal_number s); EvClientStop]
          ++ restore_events (boot os pid code t [])
          ++ EvTerminate pid :: after
        /\ (String.eqb os "nt" = false -> on_sigterm t = SIG_IGN ->
            after = [EvWait pid]))
  /\ handlers (snd (main args unknownargs
                      (boot os pid code t
                         (relayed n (Delivered s) (Returns :: rest)))))
     = t
  /\ (String.eqb os "nt" = false -> on_sigterm t = SIG_DFL ->
      fst (main args unknownargs
             (boot os pid code t (relayed n (Delivered s) (Returns :: rest))))
      = Halt (KilledBy SIGTERM))
  /\ (String.eqb os "nt" = false -> on_sigterm t = SIG_IGN ->
      fst (main args unknownargs
             (boot os pid code t (relayed n (Delivered s) (Returns :: rest))))
      = Halt Blocked).
Proof.
  intros Hmon.
  split; [reflexivity|].
  assert (Hgen :
    (forall p,
        In (EvTerminate p)
           (trace (snd (main args unknownargs (boot os pid code t sc))))
        \/ In (EvWait p)
             (trace (snd (main args unknownargs (boot os pid code t sc)))) ->
        p = pid)
    /\ (forall p,
        In (EvTerminate p)
           (trace (snd (main args unknownargs (boot os pid code t sc)))) ->
        exists before after,
          trace (snd (main args unknownargs (boot os pid code t sc)))
          = before ++ EvClientStop :: restore_events (boot os pid code t sc)
            ++ EvTerminate pid :: after
          /\ (forall q, ~ In (EvTerminate q) before)
          /\ handlers (snd (main args unknownargs (boot os pid code t sc)))
             = t)).
  { set (w0 := boot os pid code t sc).
    pose proof (main_runs args unknownargs w0) as Hrun.
    destruct (main args unknownargs w0) as [r wf].
    simpl fst in *. simpl snd in *.
    inversion Hrun as
        [logs r' w' Ht Hf Hno Hl
        |logs r' w' Ht Hf Hno Hl
        |n' logs r' w' Ht Hf Hno Hts Hfu Hl
        |n' caught logs r' w' Ht Hf Hno Hc Hl
        |n' caught w' Ht Hf Hno Hc
        |n' caught w' Ht Hf Hst Hsl Hc]; subst; rewrite Ht; clear Ht;
      cbn [managed trace with_trace with_handlers w0 boot app].
    1-4: split; [intros p [H|H]|intros p H]; exfalso; in_pieces H;
         try discriminate; try in_logs H; try discriminate.
    - split.
      + intros p [H|H]; in_pieces H; try discriminate; try in_logs H;
          try discriminate; try (inversion H; reflexivity).
      + intros p _.
        exists (install_events w0
                ++ EvClientInit (kwargs_of args unknownargs) :: EvClientStart
                   :: repeat EvClientListen (S n') ++ caught),
               (self_terminate_logs w0).
        split; [repeat (rewrite <- app_assoc; simpl); reflexivity|].
        split; [|apply Hf].
        intros q H. in_pieces H; try discriminate; try in_logs H;
          discriminate.
    - split.
      + intros p [H|H]; in_pieces H; try discriminate; try in_logs H;
          try discriminate; try (inversion H; reflexivity).
      + intros p _.
        exists (install_events w0
                ++ EvClientInit (kwargs_of args unknownargs) :: EvClientStart
                   :: repeat EvClientListen (S n') ++ caught),
               [EvWait pid].
        split; [repeat (rewrite <- app_assoc; simpl); reflexivity|].
        split; [|apply Hf].
        intros q H. in_pieces H; try discriminate; try in_logs H;
          discriminate. }
  destruct Hgen as (Hg1 & Hg2).
  split; [exact Hg1|]. split; [exact Hg2|].
  set (w0 := boot os pid code t (relayed n (Delivered s) (Returns :: rest))).
  assert (Hmon0 : monitored w0 s = true) by exact Hmon.
  rewrite (main_signalled args unknownargs w0 n s (Returns :: rest)
             eq_refl Hmon0).
  destruct (teardown_stop_returns w0
              (left_loop w0 (kwargs_of args unknownargs) n
                         [captured (signal_number s)] (Returns :: rest))
              rest (left_loop_frame _ _ _ _ _) eq_refl)
    as (Hfst & Hh & _).
  split; [|split; [exact Hh|]].
  { exists (self_terminate_logs w0
            ++ match self_terminate w0 with
               | Ok _ => [EvWait (getpid w0)]
               | _ => []
               end).
    split.
    - rewrite (teardown_stop_returns_trace w0 _ rest
                 (left_loop_frame _ _ _ _ _) eq_refl).
      unfold left_loop.
      cbn [trace handlers with_script with_trace with_handlers w0 boot app
           getpid].
      unfold install_events, restore_events, WINDOWS. cbn [os_name handlers].
      repeat (rewrite <- app_assoc; simpl). reflexivity.
    - intros Hos Hign.
      unfold self_terminate_logs, self_terminate, WINDOWS.
      cbn [os_name handlers w0 boot getpid]. now rewrite Hos, Hign. }
  rewrite Hfst.
  unfold shutdown_outcome, self_terminate, WINDOWS.
  cbn [os_name handlers kill_exit_code w0 boot].
  split; intros -> ->; reflexivity.
Qed.

Lemma C9_terminate_targets_own_process_witness :
  monitored (boot "posix" 4242 15 startup_table [Returns]) SIGTERM = true
  /\ fst (main sample_args []
            (boot "posix" 4242 15 startup_table
               (relayed 1 (Delivered SIGTERM) [Returns])))
     = Halt (KilledBy SIGTERM).
Proof.
  split; [reflexivity|].
  destruct (C9_terminate_targets_own_process sample_args [] "posix" 4242 15
              startup_table [Returns] SIGTERM 1 [] eq_refl)
    as (_ & _ & _ & _ & _ & H & _).
  apply H; reflexivity.
Defined.

(** ** A second signal *)

(** C6, as stated, fails.  With one [SIGINT] the driver stops the client,
    restores the handlers and terminates itself.  A second [SIGINT] that
    arrives during [client.stop()] adds a log record and raises
    [TerminateSignal] again, this time outside the [try]: the handlers are
    not restored and [process.terminate()] is not called. *)
Lemma C6_second_signal_aborts_teardown :
  trace (snd (main sample_args []
                (boot "posix" 4242 15 startup_table
                   (relayed 0 (Delivered SIGINT) [Returns]))))
  = [EvSignal SIGINT exit_gracefully_method;
     EvSignal SIGTERM exit_gracefully_method;
     EvClientInit (kwargs_of sample_args []); EvClientStart; EvClientListen;
     captured 2; EvClientStop;
     EvSignal SIGINT default_int_handler; EvSignal SIGTERM SIG_DFL;
     EvTerminate 4242]
  /\ main sample_args []
       (boot "posix" 4242 15 startup_table
          (relayed 0 (Delivered SIGINT) [Delivered SIGINT; Returns]))
     = (Raise (TerminateSignal "Exit process!"),
        mk_world "posix" 4242 15
          (mk_sigtable exit_gracefully_method exit_gracefully_method
                       SIG_DFL SIG_DFL)
          [EvSignal SIGINT exit_gracefully_method;
           EvSignal SIGTERM exit_gracefully_method;
           EvClientInit (kwargs_of sample_args []); EvClientStart;
           EvClientListen; captured 2; EvClientStop; captured 2]
          [Returns])
  /\ ~ same_effects
         (main sample_args []
            (boot "posix" 4242 15 startup_table
               (relayed 0 (Delivered SIGINT) [Delivered SIGINT; Returns])))
         (main sample_args []
            (boot "posix" 4242 15 startup_table
               (relayed 0 (Delivered SIGINT) [Returns]))).
Proof.
  split; [reflexivity|]. split; [reflexivity|].
  intros (H & _). discriminate H.
Qed.

Lemma teardown_stop_signalled w0 w s rest :
  frame (managed w0) w ->
  script w = Delivered s :: rest ->
  monitored w0 s = true ->
  teardown (saved w0) (mk_Process (getpid w0)) w
  = (Raise (TerminateSignal "Exit process!"),
     with_script rest
       (with_trace (trace w ++ [EvClientStop; captured (signal_number s)])
          w)).
Proof.
  intros Hf Hs Hmon. rewrite teardown_unfold. unfold client_stop.
  rewrite (call_Delivered_caught _ s w rest Hs); [reflexivity|].
  destruct (managed_frame _ _ Hf) as (_ & _ & _ & ->).
  now apply installed_monitored.
Qed.

(** C6, amended.  A second monitored termination signal that arrives
    while [client.stop()] runs is handled like the first: the handler
    logs again and raises [TerminateSignal], which nothing catches any
    more, so the handlers are not restored and the driver does not
    terminate itself.  Once [restore()] has run, a further signal meets
    the original disposition; unless that is the manager's own handler,
    the manager adds nothing: no log record and no [TerminateSignal]. *)
Theorem C6_second_signal args unknownargs os pid code t s1 s2 n rest :
  monitored (boot os pid code t
               (relayed n (Delivered s1) (Delivered s2 :: rest))) s1 = true ->
  monitored (boot os pid code t
               (relayed n (Delivered s1) (Delivered s2 :: rest))) s2 = true ->
  fst (main args unknownargs
         (boot os pid code t
            (relayed n (Delivered s1) (Delivered s2 :: rest))))
  = Raise (TerminateSignal "Exit process!")
  /\ trace (snd (main args unknownargs
                   (boot os pid code t
                      (relayed n (Delivered s1) (Delivered s2 :: rest)))))
     = install_events (boot os pid code t [])
       ++ [EvClientInit (kwargs_of args unknownargs); EvClientStart]
       ++ repeat EvClientListen (S n)
       ++ [captured (signal_number s1); EvClientStop;
           captured (signal_number s2)]
  /\ handlers (snd (main args unknownargs
                      (boot os pid code t
                         (relayed n (Delivered s1) (Delivered s2 :: rest)))))
     = installed (boot os pid code t [])
  /\ (forall w s,
        handlers w = t ->
        getsignal s t <> exit_gracefully_method ->
        trace (snd (deliver s w)) = trace w
        /\ handlers (snd (deliver s w)) = t
        /\ forall m, fst (deliver s w) <> Raise (TerminateSignal m)).
Proof.
  intros Hm1 Hm2.
  set (w0 := boot os pid code t
               (relayed n (Delivered s1) (Delivered s2 :: rest))) in *.
  rewrite (main_signalled args unknownargs w0 n s1 (Delivered s2 :: rest)
             eq_refl Hm1).
  rewrite (teardown_stop_signalled w0 _ s2 rest (left_loop_frame _ _ _ _ _)
             eq_refl Hm2).
  cbn [fst snd]. split; [reflexivity|]. split; [|split].
  - unfold left_loop.
    cbn [trace handlers with_script with_trace with_handlers w0 boot app].
    unfold install_events, WINDOWS. cbn [os_name].
    repeat (rewrite <- app_assoc; simpl). reflexivity.
  - reflexivity.
  - intros w s Hh Hne. unfold deliver, bind, signal_getsignal, read.
    cbn. rewrite Hh.
    destruct (getsignal s t) eqn:E; cbn; try contradiction;
      (split; [reflexivity|]); (split; [exact Hh|]); discriminate.
Qed.

Lemma C6_second_signal_witness :
  monitored (boot "nt" 4242 15 startup_table
               (relayed 1 (Delivered SIGBREAK) [Delivered SIGINT; Returns]))
            SIGBREAK = true
  /\ monitored (boot "nt" 4242 15 startup_table
                  (relayed 1 (Delivered SIGBREAK) [Delivered SIGINT; Returns]))
               SIGINT = true
  /\ fst (main sample_args []
            (boot "nt" 4242 15 startup_table
               (relayed 1 (Delivered SIGBREAK) [Delivered SIGINT; Returns])))
     = Raise (TerminateSignal "Exit process!").
Proof.
  split; [reflexivity|]. split; [reflexivity|].
  apply (C6_second_signal sample_args [] "nt" 4242 15 startup_table
           SIGBREAK SIGINT 1 [Returns]); reflexivity.
Defined.

(** ** The command line *)

Lemma subseq_refl {A} (l : list A) : subseq l l.
Proof. induction l; [apply subseq_nil|now apply subseq_take]. Qed.

Lemma subseq_nil_l {A} (l : list A) : subseq [] l.
Proof. induction l; [apply subseq_nil|now apply subseq_skip]. Qed.

Module ArgparseFacts.
Import Argparse ArgparseSteps.

Lemma map_fst_classify p argv : map fst (classify p argv) = argv.
Proof.
  induction argv as [|a rest IH]; [reflexivity|].
  simpl. destruct (String.eqb a "--"); simpl.
  - f_equal. rewrite map_map. simpl. apply map_id.
  - now rewrite IH.
Qed.

Lemma classify_app p a b :
  ~ In "--"%string a -> classify p (a ++ b) = classify p a ++ classify p b.
Proof.
  induction a as [|x a IH]; intros H; [reflexivity|].
  simpl. destruct (String.eqb x "--") eqn:E.
  - apply String.eqb_eq in E. subst. exfalso. apply H. now left.
  - rewrite IH; [reflexivity|]. intros Hin. apply H. now right.
Qed.

Lemma In_dash_classify p argv :
  In "--"%string argv -> exists s, In (s, PDash) (classify p argv).
Proof.
  induction argv as [|x rest IH]; intros H; [contradiction|].
  simpl. destruct (String.eqb x "--") eqn:E.
  - exists x. now left.
  - destruct H as [->|H]; [discriminate E|].
    destruct (IH H) as (s & Hs). exists s. now right.
Qed.

(** A [consume] that parses took a step, or was at the end. *)
Lemma consume_step p items ns acc ns' ex :
  consume p items ns acc = Parsed ns' ex ->
  (items = [] /\ ns' = ns /\ ex = acc)
  \/ exists items1 ns1 acc1,
       step_of p items ns acc items1 ns1 acc1
       /\ consume p items1 ns1 acc1 = Parsed ns' ex.
Proof.
  intros H. destruct items as [|[s pat] rest].
  { left. simpl in H. inversion H. auto. }
  right. simpl in H.
  destruct pat as [| |[a|] o e|]; try discriminate.
  - exists rest, ns, (acc ++ [s]). split; [now constructor|exact H].
  - exists rest, ns, (acc ++ [s]). split; [now constructor|exact H].
  - destruct a as [|d|d].
    + exfalso. destruct e as [e|]; [|discriminate].
      destruct o as [|c0 [|c1 o']].
      * destruct e; [discriminate|].
        destruct (short_options_only p _); discriminate.
      * destruct e; [discriminate|].
        destruct (short_options_only p _); discriminate.
      * destruct c1 as [[] [] [] [] [] [] [] []]; try discriminate;
          (destruct e; [discriminate|]);
          destruct (short_options_only p _); discriminate.
    + destruct e as [e|].
      * exists rest, (setattr d (get_values e) ns), acc.
        split; [constructor|exact H].
      * destruct rest as [|[x [| | |]] rest']; try discriminate.
        exists rest', (setattr d (get_values x) ns), acc.
        split; [constructor|exact H].
    + destruct e as [e|]; [discriminate|].
      exists rest, (set_true d ns), acc. split; [constructor|exact H].
  - exists rest, ns, (acc ++ [s]). split; [now constructor|exact H].
Qed.

Lemma step_shorter p items ns acc items1 ns1 acc1 :
  step_of p items ns acc items1 ns1 acc1 ->
  (List.length items1 < List.length items)%nat.
Proof. destruct 1; simpl; lia. Qed.

(** What [consume] answers when it parses: the extras grow at the end,
    by strings of the command line in their order, and a [--] that was
    met is among them. *)
Lemma consume_parsed p n : forall items ns acc ns' ex,
  (List.length items <= n)%nat ->
  consume p items ns acc = Parsed ns' ex ->
  exists more,
    ex = acc ++ more
    /\ subseq more (map fst items)
    /\ (forall s, In (s, PDash) items -> In s more).
Proof.
  induction n as [|n IH]; intros items ns acc ns' ex Hlen H;
    destruct (consume_step _ _ _ _ _ _ H)
      as [(-> & -> & ->)|(items1 & ns1 & acc1 & Hstep & H1)];
    try (exists []; rewrite app_nil_r;
         repeat split; [constructor|contradiction]).
  - apply step_shorter in Hstep. lia.
  - pose proof (step_shorter _ _ _ _ _ _ _ Hstep) as Hlt.
    apply IH in H1; [|lia]. destruct H1 as (more & -> & Hsub & Hdash).
    destruct Hstep as [s pat rest ns acc Hu|s d o e rest ns acc
                      |s d o x rest ns acc|s d o rest ns acc].
    + exists (s :: more). rewrite <- app_assoc. simpl.
      repeat split; [now apply subseq_take|].
      intros s' [Hin|Hin]; [inversion Hin; now left|right; auto].
    + exists more. repeat split; [simpl; now apply subseq_skip|].
      intros s' [Hin|Hin]; [inversion Hin|auto].
    + exists more. repeat split; [simpl; now do 2 apply subseq_skip|].
      intros s' [Hin|[Hin|Hin]]; [inversion Hin|inversion Hin|auto].
    + exists more. repeat split; [simpl; now apply subseq_skip|].
      intros s' [Hin|Hin]; [inversion Hin|auto].
Qed.

(** Strings the parser has no use for go to the extras as they are. *)
Lemma consume_unrecognized p items : forall ns acc,
  forallb unrecognized items = true ->
  consume p items ns acc = Parsed ns (acc ++ map fst items).
Proof.
  induction items as [|[s pat] rest IH]; intros ns acc H.
  - simpl. now rewrite app_nil_r.
  - simpl in H. apply andb_true_iff in H. destruct H as (Hu & Hr).
    unfold unrecognized in Hu. simpl in Hu.
    destruct pat as [| |[a|] o e|]; try discriminate; simpl;
      rewrite (IH _ _ Hr), <- app_assoc; reflexivity.
Qed.

(** A command line that parses goes on with whatever follows it. *)
Lemma consume_app p n : forall items ns acc ns' ex more,
  (List.length items <= n)%nat ->
  consume p items ns acc = Parsed ns' ex ->
  consume p (items ++ more) ns acc = consume p more ns' ex.
Proof.
  induction n as [|n IH]; intros items ns acc ns' ex more Hlen H;
    destruct (consume_step _ _ _ _ _ _ H)
      as [(-> & -> & ->)|(items1 & ns1 & acc1 & Hstep & H1)];
    try reflexivity.
  - apply step_shorter in Hstep. lia.
  - pose proof (step_shorter _ _ _ _ _ _ _ Hstep) as Hlt.
    rewrite <- (IH items1 ns1 acc1 ns' ex more) by (auto; lia).
    destruct Hstep as [s pat rest ns acc Hu|s d o e rest ns acc
                      |s d o x rest ns acc|s d o rest ns acc];
      try reflexivity.
    unfold unrecognized in Hu. simpl in Hu.
    destruct pat as [| |[a|] o e|]; try discriminate; reflexivity.
Qed.

Lemma unrecognized_not_ambiguous items :
  forallb unrecognized items = true -> existsb is_ambiguous items = false.
Proof.
  induction items as [|[s pat] rest IH]; [reflexivity|].
  simpl. intros H. apply andb_true_iff in H. destruct H as (Hu & Hr).
  rewrite (IH Hr). unfold unrecognized in Hu. unfold is_ambiguous.
  simpl in *. destruct pat; try discriminate; reflexivity.
Qed.

Lemma classify_after_dash p a b :
  In "--"%string a ->
  classify p (a ++ b) = classify p a ++ map (fun x => (x, PArg)) b.
Proof.
  induction a as [|x a IH]; intros H; [contradiction|].
  simpl. destruct (String.eqb x "--") eqn:E.
  - now rewrite map_app.
  - destruct H as [->|H]; [discriminate E|]. now rewrite IH.
Qed.

Lemma arguments_unrecognized (b : list string) :
  forallb unrecognized (map (fun x => (x, PArg)) b) = true.
Proof. induction b; simpl; auto. Qed.

(** Unrecognized strings after a command line that parses are added to
    its unrecognized strings, whole and in their order. *)
Lemma parse_tail cwd opts extra args ex :
  parse_known_args cwd opts = Parsed args ex ->
  passes_through extra = true ->
  parse_known_args cwd (opts ++ extra) = Parsed args (ex ++ extra).
Proof.
  intros H Hextra. unfold parse_known_args in *.
  destruct (existsb is_ambiguous (classify parser opts)) eqn:Ea;
    [discriminate|].
  destruct (in_dec string_dec "--"%string opts) as [Hd|Hnd].
  - rewrite (classify_after_dash _ _ _ Hd), existsb_app, Ea.
    rewrite (unrecognized_not_ambiguous _ (arguments_unrecognized extra)).
    simpl.
    rewrite (consume_app _ _ _ _ _ _ _ _ (le_n _) H).
    rewrite (consume_unrecognized _ _ _ _ (arguments_unrecognized extra)).
    rewrite map_map. simpl. now rewrite map_id.
  - rewrite (classify_app _ _ _ Hnd), existsb_app, Ea.
    unfold passes_through in Hextra.
    rewrite (unrecognized_not_ambiguous _ Hextra). simpl.
    rewrite (consume_app _ _ _ _ _ _ _ _ (le_n _) H).
    rewrite (consume_unrecognized _ _ _ _ Hextra).
    now rewrite map_fst_classify.
Qed.

End ArgparseFacts.

Lemma main_trace_starts args unknownargs w0 :
  exists after,
    trace (snd (main args unknownargs w0))
    = trace w0 ++ install_events w0
      ++ EvClientInit (kwargs_of args unknownargs) :: after.
Proof.
  pose proof (main_runs args unknownargs w0) as Hrun.
  destruct (main args unknownargs w0) as [r wf]. simpl fst in *. simpl snd in *.
  inversion Hrun; subst;
    match goal with H : trace wf = _ |- _ => rewrite H end;
    cbn [managed trace with_trace with_handlers];
    rewrite <- app_assoc; eexists; reflexivity.
Qed.

(** C8.  Without options the command line yields the defaults: relay
    (ZMQ) port 7000, server host 127.0.0.1, server port 2087, the current
    working directory as workspace and [pyls] as server command.  On
    every command line that parses, the strings the parser does not
    recognize are handed on as they are, in their order, as [server_args]
    of the [LanguageServerClient], which launches the server; whatever
    the command line held before, unrecognized strings that follow it
    are added whole, in their order, to those handed on. *)
Theorem C8_defaults_and_pass_through cwd :
  Argparse.parse_known_args cwd []
  = Argparse.Parsed
      (mk_Namespace (PyInt 7000) (PyStr "127.0.0.1") (PyInt 2087)
                    (PyStr cwd) (PyStr "pyls") false false) []
  /\ (forall argv args unknownargs,
        Argparse.parse_known_args cwd argv
        = Argparse.Parsed args unknownargs ->
        subseq unknownargs argv
        /\ forall w0, exists after,
             trace (snd (program cwd argv w0))
             = trace w0 ++ install_events w0
               ++ EvClientInit
                    (mk_kwargs (server_host args) (server_port args)
                               (folder args) (zmq_port args)
                               (external_server args) (server args)
                               unknownargs)
                  :: after)
  /\ (forall opts extra args unknownargs,
        Argparse.parse_known_args cwd opts
        = Argparse.Parsed args unknownargs ->
        passes_through extra = true ->
        Argparse.parse_known_args cwd (opts ++ extra)
        = Argparse.Parsed args (unknownargs ++ extra)
        /\ forall w0, exists after,
             trace (snd (program cwd (opts ++ extra) w0))
             = trace w0 ++ install_events w0
               ++ EvClientInit
                    (mk_kwargs (server_host args) (server_port args)
                               (folder args) (zmq_port args)
                               (external_server args) (server args)
                               (unknownargs ++ extra))
                  :: after)
  /\ (forall extra,
        passes_through extra = true ->
        Argparse.parse_known_args cwd extra
        = Argparse.Parsed
            (mk_Namespace (PyInt 7000) (PyStr "127.0.0.1") (PyInt 2087)
                          (PyStr cwd) (PyStr "pyls") false false) extra).
Proof.
  split; [reflexivity|]. split; [|split].
  - intros argv args unknownargs H. split.
    + unfold Argparse.parse_known_args in H.
      destruct (existsb Argparse.is_ambiguous _); [discriminate|].
      apply (ArgparseFacts.consume_parsed _ _ _ _ _ _ _ (le_n _)) in H.
      destruct H as (more & -> & Hsub & _).
      now rewrite ArgparseFacts.map_fst_classify in Hsub.
    + intros w0. unfold program. rewrite H.
      apply main_trace_starts.
  - intros opts extra args unknownargs H Hextra.
    pose proof (ArgparseFacts.parse_tail _ _ _ _ _ H Hextra) as Hp.
    split; [exact Hp|].
    intros w0. unfold program. rewrite Hp.
    apply main_trace_starts.
  - intros extra Hextra.
    apply (ArgparseFacts.parse_tail cwd [] extra _ [] eq_refl Hextra).
Qed.

Example parse_options_then_server_arguments :
  Argparse.parse_known_args "/home/user"
    ["--zmq-port"; "7001"; "--external-server"; "--tcp"; "-v"; "log file"]
  = Argparse.Parsed
      (mk_Namespace (PyStr "7001") (PyStr "127.0.0.1") (PyInt 2087)
                    (PyStr "/home/user") (PyStr "pyls") true false)
      ["--tcp"; "-v"; "log file"].
Proof. reflexivity. Qed.

Example tail_passes_through :
  passes_through ["--tcp"; "-v"; "log file"; "--"; "--debug"] = true.
Proof. reflexivity. Qed.

(** * Further properties of the script *)

(** ** More on the manager *)

(** X1.  [restore()] may be called again: a second call reinstalls the
    same recorded handlers, so the dispositions after two calls are those
    after one, and the second call raises nothing. *)
Theorem restore_twice sm w w1 :
  restore sm w = (Ok tt, w1) ->
  exists w2 calls,
    restore sm w1 = (Ok tt, w2)
    /\ handlers w2 = handlers w1
    /\ trace w1 = trace w ++ calls
    /\ trace w2 = trace w1 ++ calls.
Proof.
  unfold restore, bind, signal_signal, read, ret, raise, WINDOWS.
  cbn. destruct (String.eqb (os_name w) "nt") eqn:Eos.
  - destruct (original_sigbreak sm) as [h|]; [|discriminate].
    intros H. inversion H; subst; clear H. cbn. rewrite Eos.
    eexists. exists [EvSignal SIGINT (original_sigint sm);
                     EvSignal SIGTERM (original_sigterm sm);
                     EvSignal SIGBREAK h].
    split; [reflexivity|]. cbn. split; [reflexivity|].
    repeat rewrite <- app_assoc. cbn. split; reflexivity.
  - intros H. inversion H; subst; clear H. cbn. rewrite Eos.
    eexists. exists [EvSignal SIGINT (original_sigint sm);
                     EvSignal SIGTERM (original_sigterm sm)].
    split; [reflexivity|]. cbn. split; [reflexivity|].
    repeat rewrite <- app_assoc. cbn. split; reflexivity.
Qed.

Lemma restore_twice_witness :
  restore (saved (boot "nt" 4242 15 startup_table []))
          (managed (boot "nt" 4242 15 startup_table []))
  = (Ok tt,
     snd (restore (saved (boot "nt" 4242 15 startup_table []))
                  (managed (boot "nt" 4242 15 startup_table []))))
  /\ exists w2,
       restore (saved (boot "nt" 4242 15 startup_table []))
         (snd (restore (saved (boot "nt" 4242 15 startup_table []))
                       (managed (boot "nt" 4242 15 startup_table []))))
       = (Ok tt, w2)
       /\ handlers w2 = startup_table.
Proof.
  split; [reflexivity|].
  destruct (restore_twice (saved (boot "nt" 4242 15 startup_table []))
              (managed (boot "nt" 4242 15 startup_table []))
              _ eq_refl) as (w2 & calls & H1 & H2 & _).
  exists w2. split; [exact H1|]. rewrite H2. reflexivity.
Defined.

(** X2.  Managers nest like brackets.  A second manager constructed
    while the first is installed records the first one's handler; when
    the two are restored in reverse order the dispositions are the
    original ones again, and when they are restored in the order of
    construction the handler of the first manager stays installed. *)
Theorem nested_managers_restore_in_reverse w :
  (exists w',
      (outer <- SignalManager_init ;;
       inner <- SignalManager_init ;;
       restore inner ;;
       restore outer) w = (Ok tt, w')
      /\ handlers w' = handlers w)
  /\ (exists w',
      (outer <- SignalManager_init ;;
       inner <- SignalManager_init ;;
       restore outer ;;
       restore inner) w = (Ok tt, w')
      /\ handlers w' = installed w)
  /\ (forall s, monitored w s = true ->
        recorded (saved (managed w)) s = Some exit_gracefully_method).
Proof.
  split; [|split].
  - unfold bind at 1. rewrite SignalManager_init_run.
    unfold bind at 1. rewrite SignalManager_init_run.
    unfold bind at 1.
    rewrite (restore_run (managed w)).
    + rewrite (restore_run w).
      * eexists. split; reflexivity.
      * reflexivity.
      * reflexivity.
      * intros Hw; unfold installed, managed in *; cbn in *;
        unfold WINDOWS in *; cbn [os_name] in *;
        repeat rewrite Hw; reflexivity.
    + reflexivity.
    + reflexivity.
    + intros Hw; unfold installed, managed in *; cbn in *;
        unfold WINDOWS in *; cbn [os_name] in *;
        repeat rewrite Hw; reflexivity.
  - unfold bind at 1. rewrite SignalManager_init_run.
    unfold bind at 1. rewrite SignalManager_init_run.
    unfold bind at 1.
    rewrite (restore_run w).
    + rewrite (restore_run (managed w)).
      * eexists. split; reflexivity.
      * reflexivity.
      * reflexivity.
      * intros Hw; unfold installed, managed in *; cbn in *;
        unfold WINDOWS in *; cbn [os_name] in *;
        repeat rewrite Hw; reflexivity.
    + reflexivity.
    + reflexivity.
    + intros Hw; unfold installed, managed in *; cbn in *;
        unfold WINDOWS in *; cbn [os_name] in *;
        repeat rewrite Hw; reflexivity.
  - intros s Hs. unfold saved, managed, installed, monitored in *.
    cbn in *. unfold WINDOWS in *. cbn [os_name] in *.
    destruct s; cbn; try discriminate; auto.
    now repeat rewrite Hs.
Qed.

(** ** More on the [__main__] block *)

Lemma call_Delivered_default e s w rest :
  script w = Delivered s :: rest ->
  getsignal s (handlers w) = SIG_DFL ->
  call e w
  = (Halt (KilledBy s), with_script rest (with_trace (trace w ++ [e]) w)).
Proof.
  intros Hs Hh. unfold call, bind, emit. simpl. rewrite Hs. simpl.
  unfold deliver, bind, signal_getsignal, read. simpl. rewrite Hh.
  reflexivity.
Qed.

Lemma installed_unmonitored w s :
  monitored w s = false -> getsignal s (installed w) = getsignal s (handlers w).
Proof.
  unfold monitored, installed. destruct s; simpl; try discriminate; auto.
  now intros ->.
Qed.

(** X3.  When [client.stop()] raises, the exception leaves the block:
    [restore()] and [process.terminate()] are not reached, so the
    manager's handlers stay installed and the driver does not terminate
    itself. *)
Theorem stop_failure_skips_restore args unknownargs os pid code t s e n rest :
  monitored (boot os pid code t
               (relayed n (Delivered s) (Raises e :: rest))) s = true ->
  fst (main args unknownargs
         (boot os pid code t (relayed n (Delivered s) (Raises e :: rest))))
  = Raise e
  /\ trace (snd (main args unknownargs
                   (boot os pid code t
                      (relayed n (Delivered s) (Raises e :: rest)))))
     = install_events (boot os pid code t [])
       ++ [EvClientInit (kwargs_of args unknownargs); EvClientStart]
       ++ repeat EvClientListen (S n)
       ++ [captured (signal_number s); EvClientStop]
  /\ handlers (snd (main args unknownargs
                      (boot os pid code t
                         (relayed n (Delivered s) (Raises e :: rest)))))
     = installed (boot os pid code t []).
Proof.
  intros Hmon.
  set (w0 := boot os pid code t (relayed n (Delivered s) (Raises e :: rest)))
    in *.
  rewrite (main_signalled args unknownargs w0 n s (Raises e :: rest)
             eq_refl Hmon).
  rewrite teardown_unfold. unfold client_stop.
  rewrite (call_Raises _ e _ rest) by reflexivity.
  cbn [fst snd]. split; [reflexivity|]. split; [|reflexivity].
  unfold left_loop.
  cbn [trace handlers with_script with_trace with_handlers w0 boot app].
  unfold install_events, WINDOWS. cbn [os_name].
  repeat (rewrite <- app_assoc; simpl). reflexivity.
Qed.

Lemma stop_failure_skips_restore_witness :
  monitored (boot "posix" 4242 15 startup_table
               (relayed 0 (Delivered SIGINT)
                        [Raises (OtherError "TimeoutError")])) SIGINT = true
  /\ fst (main sample_args []
            (boot "posix" 4242 15 startup_table
               (relayed 0 (Delivered SIGINT)
                        [Raises (OtherError "TimeoutError")])))
     = Raise (OtherError "TimeoutError").
Proof.
  split; [reflexivity|].
  apply (stop_failure_skips_restore sample_args [] "posix" 4242 15
           startup_table SIGINT (OtherError "TimeoutError") 0 []).
  reflexivity.
Defined.

(** X4.  The manager intercepts the monitored signals only.  A signal it
    does not monitor, left at its default disposition, kills the driver
    in the middle of the loop: no teardown runs, [client.stop()] is not
    called and nothing is restored. *)
Theorem unmonitored_signal_kills_without_teardown
    args unknownargs os pid code t s n rest :
  monitored (boot os pid code t (relayed n (Delivered s) rest)) s = false ->
  getsignal s t = SIG_DFL ->
  fst (main args unknownargs
         (boot os pid code t (relayed n (Delivered s) rest)))
  = Halt (KilledBy s)
  /\ trace (snd (main args unknownargs
                   (boot os pid code t (relayed n (Delivered s) rest))))
     = install_events (boot os pid code t [])
       ++ [EvClientInit (kwargs_of args unknownargs); EvClientStart]
       ++ repeat EvClientListen (S n)
  /\ handlers (snd (main args unknownargs
                      (boot os pid code t (relayed n (Delivered s) rest))))
     = installed (boot os pid code t []).
Proof.
  intros Hmon Hdfl.
  set (w0 := boot os pid code t (relayed n (Delivered s) rest)) in *.
  assert (Hrun : main args unknownargs w0
                 = (Halt (KilledBy s),
                    left_loop w0 (kwargs_of args unknownargs) n [] rest)).
  { rewrite (main_started args unknownargs w0 _ eq_refl).
    unfold bind at 1. unfold try_except_TerminateSignal.
    rewrite (loop_relayed w0 _ n (Delivered s) rest (Halt (KilledBy s)) []).
    - reflexivity.
    - discriminate.
    - intros w' Hs' Hf. apply call_Delivered_default; auto.
      destruct Hf as (_ & _ & _ & ->). cbn.
      rewrite (installed_unmonitored w0 s Hmon). exact Hdfl. }
  rewrite Hrun.
  cbn [fst snd]. split; [reflexivity|]. split; [|reflexivity].
  unfold left_loop.
  cbn [trace handlers with_script with_trace with_handlers w0 boot app].
  unfold install_events, WINDOWS. cbn [os_name].
  repeat (rewrite <- app_assoc; simpl). now rewrite app_nil_r.
Qed.

Lemma unmonitored_signal_kills_without_teardown_witness :
  monitored (boot "posix" 4242 15 startup_table
               (relayed 2 (Delivered SIGHUP) [])) SIGHUP = false
  /\ getsignal SIGHUP startup_table = SIG_DFL
  /\ fst (main sample_args []
            (boot "posix" 4242 15 startup_table
               (relayed 2 (Delivered SIGHUP) [])))
     = Halt (KilledBy SIGHUP).
Proof.
  split; [reflexivity|]. split; [reflexivity|].
  apply (unmonitored_signal_kills_without_teardown sample_args [] "posix"
           4242 15 startup_table SIGHUP 2 []); reflexivity.
Defined.

(** X5.  Where [SIGTERM] was ignored before start-up (and the platform
    is not Windows), a shutdown does not end: [restore()] puts the
    ignoring disposition back, the [SIGTERM] the driver sends to itself
    is ignored, and the driver then waits in [process.wait()] for its own
    end. *)
Theorem ignored_sigterm_shutdown_hangs
    args unknownargs os pid code t s n rest :
  monitored (boot os pid code t
               (relayed n (Delivered s) (Returns :: rest))) s = true ->
  String.eqb os "nt" = false ->
  on_sigterm t = SIG_IGN ->
  fst (main args unknownargs
         (boot os pid code t (relayed n (Delivered s) (Returns :: rest))))
  = Halt Blocked
  /\ trace (snd (main args unknownargs
                   (boot os pid code t
                      (relayed n (Delivered s) (Returns :: rest)))))
     = install_events (boot os pid code t [])
       ++ [EvClientInit (kwargs_of args unknownargs); EvClientStart]
       ++ repeat EvClientListen (S n)
       ++ [captured (signal_number s); EvClientStop]
       ++ restore_events (boot os pid code t [])
       ++ [EvTerminate pid; EvWait pid]
  /\ handlers (snd (main args unknownargs
                      (boot os pid code t
                         (relayed n (Delivered s) (Returns :: rest)))))
     = t.
Proof.
  intros Hmon Hos Hign.
  set (w0 := boot os pid code t (relayed n (Delivered s) (Returns :: rest)))
    in *.
  rewrite (main_signalled args unknownargs w0 n s (Returns :: rest)
             eq_refl Hmon).
  assert (Hst : self_terminate w0 = Ok tt).
  { unfold self_terminate, WINDOWS. cbn. now rewrite Hos, Hign. }
  assert (Hsl : self_terminate_logs w0 = []).
  { unfold self_terminate_logs, WINDOWS. cbn. now rewrite Hos, Hign. }
  destruct (teardown_stop_returns w0
              (left_loop w0 (kwargs_of args unknownargs) n
                         [captured (signal_number s)] (Returns :: rest))
              rest (left_loop_frame _ _ _ _ _) eq_refl)
    as (Hfst & Hh & _).
  split; [|split].
  - rewrite Hfst. unfold shutdown_outcome. now rewrite Hst.
  - rewrite (teardown_stop_returns_trace w0 _ rest
               (left_loop_frame _ _ _ _ _) eq_refl).
    rewrite Hst, Hsl. unfold left_loop.
    cbn [trace handlers with_script with_trace with_handlers w0 boot app
         getpid].
    unfold install_events, restore_events, WINDOWS. cbn [os_name handlers].
    repeat (rewrite <- app_assoc; simpl). reflexivity.
  - exact Hh.
Qed.

Lemma ignored_sigterm_shutdown_hangs_witness :
  monitored (boot "posix" 4242 15
               (mk_sigtable default_int_handler SIG_IGN SIG_DFL SIG_DFL)
               (relayed 1 (Delivered SIGINT) [Returns])) SIGINT = true
  /\ String.eqb "posix" "nt" = false
  /\ on_sigterm (mk_sigtable default_int_handler SIG_IGN SIG_DFL SIG_DFL)
     = SIG_IGN
  /\ fst (main sample_args []
            (boot "posix" 4242 15
               (mk_sigtable default_int_handler SIG_IGN SIG_DFL SIG_DFL)
               (relayed 1 (Delivered SIGINT) [Returns])))
     = Halt Blocked.
Proof.
  split; [reflexivity|]. split; [reflexivity|]. split; [reflexivity|].
  apply (ignored_sigterm_shutdown_hangs sample_args [] "posix" 4242 15
           (mk_sigtable default_int_handler SIG_IGN SIG_DFL SIG_DFL)
           SIGINT 1 []); reflexivity.
Defined.

(** X6.  Every run installs the manager's handlers first and constructs
    the client next, exactly once; [client.start()], when it is reached,
    is the call right after that and is not made again. *)
Theorem client_constructed_once args unknownargs os pid code t sc :
  exists after,
    trace (snd (main args unknownargs (boot os pid code t sc)))
    = install_events (boot os pid code t sc)
      ++ EvClientInit (kwargs_of args unknownargs) :: after
    /\ (forall kw, ~ In (EvClientInit kw) after)
    /\ (~ In EvClientStart after
        \/ exists later,
             after = EvClientStart :: later /\ ~ In EvClientStart later).
Proof.
  set (w0 := boot os pid code t sc).
  pose proof (main_runs args unknownargs w0) as Hrun.
  destruct (main args unknownargs w0) as [r wf]. simpl fst in *. simpl snd in *.
  inversion Hrun as
      [logs r' w' Ht Hf Hno Hl
      |logs r' w' Ht Hf Hno Hl
      |n logs r' w' Ht Hf Hno Hts Hfu Hl
      |n caught logs r' w' Ht Hf Hno Hc Hl
      |n caught w' Ht Hf Hno Hc
      |n caught w' Ht Hf Hst Hsl Hc]; subst; rewrite Ht; clear Ht;
    cbn [managed trace with_trace with_handlers w0 boot app];
    eexists; (split; [reflexivity|]); split.
  all: try (intros kw H; in_pieces H; try discriminate; try in_logs H;
            discriminate).
  - left. intros H. in_logs H. discriminate.
  - right. eexists. split; [reflexivity|].
    intros H. in_logs H. discriminate.
  - right. eexists. split; [reflexivity|].
    intros H. in_pieces H; try discriminate; try in_logs H; discriminate.
  - right. eexists. split; [reflexivity|].
    intros H. in_pieces H; try discriminate; try in_logs H; discriminate.
  - right. eexists. split; [reflexivity|].
    intros H. in_pieces H; try discriminate; try in_logs H; discriminate.
  - right. eexists. split; [reflexivity|].
    intros H. in_pieces H; try discriminate; try in_logs H; discriminate.
Qed.

(** ** More on the command line *)

Module ParserFacts.
Import Argparse ArgparseSteps ArgparseFacts.

Lemma store_option_classified name d :
  In (name, Store d) parser ->
  String.eqb name "--" = false
  /\ parse_optional parser name = POpt (Some (Store d)) name None.
Proof.
  unfold parser. intros H.
  repeat (destruct H as [H|H];
          [inversion H; subst; split; reflexivity|]).
  contradiction.
Qed.

Lemma flag_option_classified name d :
  In (name, StoreTrue d) parser ->
  String.eqb name "--" = false
  /\ parse_optional parser name = POpt (Some (StoreTrue d)) name None.
Proof.
  unfold parser. intros H.
  repeat (destruct H as [H|H];
          [inversion H; subst; split; reflexivity|]).
  contradiction.
Qed.

Lemma plain_value_classified v :
  (forall c r, v = String c r -> c <> "-"%char) ->
  String.eqb v "--" = false /\ parse_optional parser v = PArg.
Proof.
  intros H. destruct v as [|c r]; [split; reflexivity|].
  specialize (H c r eq_refl).
  assert (Hc : Ascii.eqb c "-" = false) by (now apply Ascii.eqb_neq).
  split.
  - apply String.eqb_neq. intros E. inversion E. contradiction.
  - unfold parse_optional. now rewrite Hc.
Qed.

(** A command line that parses, without [--], followed by [more]. *)
Lemma parse_then cwd argv ns ex more :
  parse_known_args cwd argv = Parsed ns ex ->
  ~ In "--"%string argv ->
  parse_known_args cwd (argv ++ more)
  = if existsb is_ambiguous (classify parser more) then SystemExit 2
    else consume parser (classify parser more) ns ex.
Proof.
  intros H Hnd. unfold parse_known_args in *.
  destruct (existsb is_ambiguous (classify parser argv)) eqn:Ea;
    [discriminate|].
  rewrite (classify_app _ _ _ Hnd), existsb_app, Ea. simpl.
  destruct (existsb is_ambiguous (classify parser more)); [reflexivity|].
  apply (consume_app _ _ _ _ _ _ _ _ (le_n _) H).
Qed.

End ParserFacts.

(** X7.  A value option given at the end of a command line that parses
    overrides whatever its destination held, default or earlier value,
    and changes nothing else; a flag given there sets its destination.
    The unrecognized strings stay as they were. *)
Theorem later_option_overrides cwd argv ns ex name d v fname fd :
  Argparse.parse_known_args cwd argv = Argparse.Parsed ns ex ->
  ~ In "--"%string argv ->
  In (name, Argparse.Store d) Argparse.parser ->
  (forall c r, v = String c r -> c <> "-"%char) ->
  In (fname, Argparse.StoreTrue fd) Argparse.parser ->
  Argparse.parse_known_args cwd (argv ++ [name; v])
  = Argparse.Parsed (Argparse.setattr d (PyStr v) ns) ex
  /\ Argparse.parse_known_args cwd (argv ++ [fname])
     = Argparse.Parsed (Argparse.set_true fd ns) ex.
Proof.
  intros H Hnd Hname Hv Hflag.
  destruct (ParserFacts.store_option_classified _ _ Hname) as (Hn1 & Hn2).
  destruct (ParserFacts.plain_value_classified _ Hv) as (Hv1 & Hv2).
  destruct (ParserFacts.flag_option_classified _ _ Hflag) as (Hf1 & Hf2).
  split.
  - rewrite (ParserFacts.parse_then _ _ _ _ _ H Hnd).
    cbn [Argparse.classify]. rewrite Hn1, Hv1, Hn2, Hv2.
    cbn. unfold Argparse.get_values. now rewrite Hv1.
  - rewrite (ParserFacts.parse_then _ _ _ _ _ H Hnd).
    cbn [Argparse.classify]. rewrite Hf1, Hf2. reflexivity.
Qed.

Lemma later_option_overrides_witness :
  Argparse.parse_known_args "/home/user" ["--server"; "pyls"; "--tcp"]
  = Argparse.Parsed (Argparse.defaults "/home/user") ["--tcp"]
  /\ Argparse.parse_known_args "/home/user"
       (["--server"; "pyls"; "--tcp"] ++ ["--server"; "jedi-server"])
     = Argparse.Parsed
         (Argparse.setattr Argparse.d_server (PyStr "jedi-server")
                           (Argparse.defaults "/home/user"))
         ["--tcp"].
Proof.
  split; [reflexivity|].
  apply (later_option_overrides "/home/user" ["--server"; "pyls"; "--tcp"]
           (Argparse.defaults "/home/user") ["--tcp"]
           "--server" Argparse.d_server "jedi-server"
           "--debug" Argparse.d_debug).
  - reflexivity.
  - intros H. repeat (destruct H as [H|H]; [discriminate H|]). exact H.
  - unfold Argparse.parser. simpl. tauto.
  - intros c r H. inversion H. discriminate.
  - unfold Argparse.parser. simpl. tauto.
Defined.

(** X8.  A value option at the very end of the command line has no
    value to take: the parser exits with status 2, and the script ends
    there, before a handler is installed or the client is constructed. *)
Theorem option_without_value_exits cwd argv ns ex name d w :
  Argparse.parse_known_args cwd argv = Argparse.Parsed ns ex ->
  ~ In "--"%string argv ->
  In (name, Argparse.Store d) Argparse.parser ->
  Argparse.parse_known_args cwd (argv ++ [name]) = Argparse.SystemExit 2
  /\ program cwd (argv ++ [name]) w = (Halt (Exited 2), w).
Proof.
  intros H Hnd Hname.
  destruct (ParserFacts.store_option_classified _ _ Hname) as (Hn1 & Hn2).
  assert (Hp : Argparse.parse_known_args cwd (argv ++ [name])
               = Argparse.SystemExit 2).
  { rewrite (ParserFacts.parse_then _ _ _ _ _ H Hnd).
    cbn [Argparse.classify]. rewrite Hn1, Hn2. reflexivity. }
  split; [exact Hp|]. unfold program. now rewrite Hp.
Qed.

Lemma option_without_value_exits_witness :
  Argparse.parse_known_args "/home/user" ["--debug"]
  = Argparse.Parsed (Argparse.set_true Argparse.d_debug
                       (Argparse.defaults "/home/user")) []
  /\ Argparse.parse_known_args "/home/user" (["--debug"] ++ ["--folder"])
     = Argparse.SystemExit 2.
Proof.
  split; [reflexivity|].
  apply (option_without_value_exits "/home/user" ["--debug"]
           (Argparse.set_true Argparse.d_debug (Argparse.defaults "/home/user"))
           [] "--folder" Argparse.d_folder
           (boot "posix" 4242 15 startup_table [])).
  - reflexivity.
  - intros H. repeat (destruct H as [H|H]; [discriminate H|]). exact H.
  - unfold Argparse.parser. simpl. tauto.
Defined.

(** X9.  An abbreviation that fits several options is rejected wherever
    it stands in front of a [--], whatever else the command line holds,
    a request for help included: the parser exits with status 2 and the
    script ends before anything is installed or constructed.  [--serv]
    is such a string, since [--server], [--server-host] and
    [--server-port] all begin with it. *)
Theorem ambiguous_abbreviation_exits cwd pre a post w :
  ~ In "--"%string pre ->
  a <> "--"%string ->
  Argparse.parse_optional Argparse.parser a = Argparse.PAmbiguous ->
  Argparse.parse_known_args cwd (pre ++ a :: post) = Argparse.SystemExit 2
  /\ program cwd (pre ++ a :: post) w = (Halt (Exited 2), w).
Proof.
  intros Hnd Ha Hamb.
  assert (Hp : Argparse.parse_known_args cwd (pre ++ a :: post)
               = Argparse.SystemExit 2).
  { unfold Argparse.parse_known_args.
    rewrite (ArgparseFacts.classify_app _ _ _ Hnd), existsb_app.
    cbn [Argparse.classify].
    apply String.eqb_neq in Ha. rewrite Ha.
    cbn [existsb]. unfold Argparse.is_ambiguous at 2. cbn [snd].
    rewrite Hamb. cbn. now rewrite orb_true_r. }
  split; [exact Hp|]. unfold program. now rewrite Hp.
Qed.

Lemma ambiguous_abbreviation_exits_witness :
  Argparse.parse_optional Argparse.parser "--serv" = Argparse.PAmbiguous
  /\ Argparse.parse_known_args "/home/user"
       (["-h"; "--debug"] ++ "--serv" :: ["pyls"])
     = Argparse.SystemExit 2.
Proof.
  split; [reflexivity|].
  apply (ambiguous_abbreviation_exits "/home/user" ["-h"; "--debug"]
           "--serv" ["pyls"] (boot "posix" 4242 15 startup_table [])).
  - intros H. repeat (destruct H as [H|H]; [discriminate H|]). exact H.
  - discriminate.
  - reflexivity.
Defined.

(** X10.  [-h] or [--help] after a command line that parses ends the
    script with status 0 whatever follows it, a value option without its
    value included, as long as no ambiguous abbreviation follows;
    nothing is installed or constructed. *)
Theorem help_exits_first cwd pre ns ex o post w :
  Argparse.parse_known_args cwd pre = Argparse.Parsed ns ex ->
  ~ In "--"%string pre ->
  o = "-h"%string \/ o = "--help"%string ->
  existsb Argparse.is_ambiguous (Argparse.classify Argparse.parser post)
  = false ->
  Argparse.parse_known_args cwd (pre ++ o :: post) = Argparse.SystemExit 0
  /\ program cwd (pre ++ o :: post) w = (Halt (Exited 0), w).
Proof.
  intros H Hnd Ho Hpost.
  assert (Hp : Argparse.parse_known_args cwd (pre ++ o :: post)
               = Argparse.SystemExit 0).
  { rewrite (ParserFacts.parse_then _ _ _ _ _ H Hnd).
    destruct Ho as [-> | ->]; cbn [Argparse.classify String.eqb Ascii.eqb
                                   Bool.eqb];
      cbn; rewrite Hpost; reflexivity. }
  split; [exact Hp|]. unfold program. now rewrite Hp.
Qed.

Lemma help_exits_first_witness :
  Argparse.parse_known_args "/home/user" ["--zmq-port"; "7001"]
  = Argparse.Parsed
      (Argparse.setattr Argparse.d_zmq_port (PyStr "7001")
                        (Argparse.defaults "/home/user")) []
  /\ Argparse.parse_known_args "/home/user"
       (["--zmq-port"; "7001"] ++ "--help" :: ["--folder"])
     = Argparse.SystemExit 0.
Proof.
  split; [reflexivity|].
  apply (help_exits_first "/home/user" ["--zmq-port"; "7001"]
           (Argparse.setattr Argparse.d_zmq_port (PyStr "7001")
                             (Argparse.defaults "/home/user"))
           [] "--help" ["--folder"] (boot "posix" 4242 15 startup_table [])).
  - reflexivity.
  - intros H. repeat (destruct H as [H|H]; [discriminate H|]). exact H.
  - now right.
  - reflexivity.
Defined.

Lemma consume_keeps (I : Namespace -> Prop) p :
  (forall d e ns, I ns -> I (Argparse.setattr d (Argparse.get_values e) ns)) ->
  (forall d ns, I ns -> I (Argparse.set_true d ns)) ->
  forall n items ns acc ns' ex,
    (List.length items <= n)%nat ->
    Argparse.consume p items ns acc = Argparse.Parsed ns' ex ->
    I ns -> I ns'.
Proof.
  intros Hset Htrue.
  induction n as [|n IH]; intros items ns acc ns' ex Hlen H HI;
    destruct (ArgparseFacts.consume_step _ _ _ _ _ _ H)
      as [(-> & -> & ->)|(items1 & ns1 & acc1 & Hstep & H1)]; auto.
  - apply ArgparseFacts.step_shorter in Hstep. lia.
  - pose proof (ArgparseFacts.step_shorter _ _ _ _ _ _ _ Hstep) as Hlt.
    apply (IH items1 ns1 acc1 ns' ex); [lia|exact H1|].
    destruct Hstep; auto.
Qed.

(** X11.  No option has a [type]: what the command line gives for a
    port is kept as text.  After parsing, [zmq_port] is the integer
    default 7000 or no integer at all, and [server_port] is the integer
    default 2087 or no integer at all; so a port given on the command
    line reaches [LanguageServerClient] as a string. *)
Theorem command_line_ports_are_text cwd argv ns ex :
  Argparse.parse_known_args cwd argv = Argparse.Parsed ns ex ->
  (zmq_port ns = PyInt 7000 \/ is_int (zmq_port ns) = false)
  /\ (server_port ns = PyInt 2087 \/ is_int (server_port ns) = false)
  /\ kw_zmq_port (kwargs_of ns ex) = zmq_port ns
  /\ kw_port (kwargs_of ns ex) = server_port ns.
Proof.
  intros H. unfold Argparse.parse_known_args in H.
  destruct (existsb Argparse.is_ambiguous _); [discriminate|].
  assert (HI : (zmq_port ns = PyInt 7000 \/ is_int (zmq_port ns) = false)
               /\ (server_port ns = PyInt 2087
                   \/ is_int (server_port ns) = false)).
  { apply (consume_keeps
             (fun ns => (zmq_port ns = PyInt 7000
                         \/ is_int (zmq_port ns) = false)
                        /\ (server_port ns = PyInt 2087
                            \/ is_int (server_port ns) = false))
             _ ltac:(intros d e m (I1 & I2); unfold Argparse.get_values;
                     destruct d, (String.eqb e "--"); cbn; auto)
               ltac:(intros d m (I1 & I2); destruct d; cbn; auto)
             _ _ _ _ _ _ (le_n _) H).
    cbn. auto. }
  destruct HI as (I1 & I2). repeat split; auto.
Qed.

Lemma command_line_ports_are_text_witness :
  Argparse.parse_known_args "/home/user" ["--zmq-port"; "7001"]
  = Argparse.Parsed
      (Argparse.setattr Argparse.d_zmq_port (PyStr "7001")
                        (Argparse.defaults "/home/user")) []
  /\ (zmq_port (Argparse.setattr Argparse.d_zmq_port (PyStr "7001")
                                 (Argparse.defaults "/home/user"))
      = PyInt 7000
      \/ is_int (zmq_port (Argparse.setattr Argparse.d_zmq_port
                             (PyStr "7001")
                             (Argparse.defaults "/home/user")))
         = false).
Proof.
  split; [reflexivity|].
  apply (command_line_ports_are_text "/home/user" ["--zmq-port"; "7001"]
           _ [] eq_refl).
Defined.
